(** * responses: the match-and-respond engine of [responses/__init__.py]

    A shallow embedding of the mock registry ([RequestsMock]), the matcher
    ([BaseResponse.matches]), response materialisation ([get_response]) and
    the dispatcher ([_on_request]), followed by the properties the
    specification states about them.

    Conventions.
    - Python text is a [string]; a character is its code point (below 256).
    - Mock objects live in an object store indexed by their identity; the
      registry [_matches] is a list of identities, so that one object added
      twice is shared, and [call_count] is a field of the stored object.
    - A method that may raise runs in the state-and-exception monad [M].
    - Functions imported from other packages (urllib, urllib3, requests,
      json) are the fields of the class [Lib]; the general theorems hold for
      every implementation of them.  The url functions are taken where they
      return: [urlsplit] and [parse_url] raise on a malformed url, and the
      model says nothing about a registry or a request holding one.
    - urllib3's [HTTPHeaderDict] is modelled by its container. *)

From Stdlib Require Import Ascii String.
From stdpp Require Import base option list functions strings gmap sorting pretty.
From Equations Require Import Equations.

Set Warnings "-register-all".

(** ** Text helpers *)

Definition dq : string := String "034"%char "".
Definition nl : string := String "010"%char "".

(** [ord(c)] *)
Definition ord (c : ascii) : nat := nat_of_ascii c.

(** [s.split(c, 1)]: the part before the first [c], and the rest if any. *)
Fixpoint split1 (c : ascii) (s : string) : string * option string :=
  match s with
  | "" => ("", None)
  | String a s' =>
      if Ascii.eqb a c then ("", Some s')
      else let '(h, t) := split1 c s' in (String a h, t)
  end.

(** [s.split(c)] *)
Fixpoint split (c : ascii) (s : string) : list string :=
  match s with
  | "" => [""]
  | String a s' =>
      if Ascii.eqb a c then "" :: split c s'
      else match split c s' with
           | h :: t => String a h :: t
           | [] => [String a ""]
           end
  end.

(** [sep.join(l)] *)
Fixpoint join (sep : string) (l : list string) : string :=
  match l with
  | [] => ""
  | [x] => x
  | x :: l' => x +:+ sep +:+ join sep l'
  end.

Definition lower_char (c : ascii) : ascii :=
  if ((65 <=? ord c) && (ord c <=? 90))%nat then ascii_of_nat (ord c + 32) else c.

(** [s.lower()] on ASCII letters *)
Fixpoint lower (s : string) : string :=
  match s with
  | "" => ""
  | String a s' => String (lower_char a) (lower s')
  end.

(** [s.startswith(p)] *)
Definition startswith (s p : string) : bool := String.prefix p s.

(** [_has_unicode]: [any(ord(char) > 128 for char in s)] *)
Definition _has_unicode (s : string) : bool :=
  existsb (fun char => (128 <? ord char)%nat) (list_ascii_of_string s).

(** ** Python values that cross the interface *)

Definition bytes := list Byte.byte.

(** A compiled regular expression: its source text and its [match] method
    (a match object is truthy, [None] is falsy). *)
Record Pattern := { pattern : string; re_match : string -> bool }.

(** A url is a literal string or a compiled pattern. *)
Inductive Url :=
| UStr (s : string)
| UPat (p : Pattern).

(** The value a request's [params] slot receives: one value, or the list of
    the values of a run. *)
Inductive ParamValue :=
| Single (v : string)
| Multi (vs : list string).

(** The prepared request handed over by the transport. *)
Record PreparedRequest := {
  req_method : string;
  req_url : string;
  req_body : option bytes;
  req_params : option (gmap string ParamValue)
}.

Definition set_params (request : PreparedRequest) (p : gmap string ParamValue)
  : PreparedRequest :=
  {| req_method := req_method request; req_url := req_url request;
     req_body := req_body request; req_params := Some p |}.

Inductive Exception :=
| ConnectionError (msg : string) (request : option PreparedRequest)
| AssertionError (msg : string)
| ValueError (msg : string)
| TypeError (msg : string)
| IndexError (msg : string)
| AttributeError (msg : string)
| NotImplementedError
| UserError (name : string).

(** The outcome of a call: a value, or a raised exception. *)
Inductive result (A : Type) :=
| Ok (a : A)
| Raise (e : Exception).
Arguments Ok {A} a.
Arguments Raise {A} e.

Inductive JSON :=
| JNull
| JBool (b : bool)
| JNum (n : Z)
| JStr (s : string)
| JArr (l : list JSON)
| JObj (kvs : list (string * JSON)).

(** Headers as a test declares them or a callback returns them: the items of
    a dict, or a list of pairs. *)
Definition Headers := list (string * string).

(** urllib3's [HTTPHeaderDict]: its [_container], an ordered dict from the
    lower-cased name to the list [[name as first written; value; ...]], kept
    in the order in which the names were first stored. *)
Definition HTTPHeaderDict := list (string * list string).

(** A response body as the test declares it. *)
Inductive Body :=
| BodyText (s : string)
| BodyBytes (b : bytes)
| BodyReader (fd : nat)
| BodyExc (e : Exception).

(** [bool(body)] *)
Definition body_truthy (body : Body) : bool :=
  match body with
  | BodyText s => negb (String.eqb s "")
  | BodyBytes b => negb (Nat.eqb (length b) 0)
  | BodyReader _ => true
  | BodyExc _ => true
  end.

(** The readable stream [_handle_body] produces. *)
Inductive Stream :=
| BufferIO (b : bytes)
| BufferedReader (fd : nat).

Record OriginalResponseShim := { msg : HTTPHeaderDict }.

(** urllib3's [HTTPResponse], as constructed by [get_response]. *)
Record HTTPResponse := {
  raw_status : Z;
  raw_reason : option string;
  raw_body : Stream;
  raw_headers : HTTPHeaderDict;
  original_response : OriginalResponseShim;
  preload_content : bool
}.

(** The response object of the transport ([adapter.build_response]). *)
Record RResponse := {
  resp_raw : HTTPResponse;
  resp_request : PreparedRequest;
  resp_content : option bytes
}.

(** What the call log and the response callback see. *)
Inductive Obj :=
| ObjExc (e : Exception)
| ObjResp (r : RResponse).

(** [urlsplit]'s and [urlparse]'s tuples. *)
Record SplitResult := {
  sp_scheme : string; sp_netloc : string; sp_path : string;
  sp_query : string; sp_fragment : string
}.

Record ParseResult := {
  scheme : string; netloc : string; path : string;
  params : string; query : string; fragment : string
}.

(** ** The imported library functions *)

Class Lib := {
  urlparse : string -> ParseResult;
  urlsplit : string -> SplitResult;
  urlunsplit : SplitResult -> string;
  parse_qsl : string -> list (string * string);
  (** [parse_url(u).url] of urllib3 *)
  parse_url : string -> string;
  quote : ascii -> string;
  (** [d.encode("punycode").decode("ascii")] *)
  punycode : string -> string;
  json_dumps : JSON -> string;
  (** [s.encode("utf-8")] *)
  utf8 : string -> bytes;
  (** [six.moves.http_client.responses.get] *)
  http_client_responses : Z -> option string;
  (** [request.path_url] *)
  path_url : PreparedRequest -> string;
  (** [adapter.build_response] *)
  build_response : PreparedRequest -> HTTPResponse -> result RResponse;
  (** evaluating [response.content] *)
  content : RResponse -> RResponse;
  (** [_real_send = HTTPAdapter.send] *)
  _real_send : PreparedRequest -> result Obj
}.

(** The sentinels [UNSET] and [_unspecified]: an argument the caller left out. *)
Inductive arg (A : Type) :=
| UNSET
| Given (a : A).
Arguments UNSET {A}.
Arguments Given {A} a.

(** A body matcher: a predicate over the raw request body. *)
Definition Matcher := option bytes -> bool.

(** The headers a callback returns: a dict or a list of pairs. *)
Inductive RHeaders :=
| HDict (d : Headers)
| HList (l : Headers).

Definition r_items (r_headers : RHeaders) : Headers :=
  match r_headers with HDict d => d | HList l => l end.

(** What a callback hands back: an exception (returned or raised), or the
    triple [(status, headers, body)]. *)
Inductive CallbackReturn :=
| ReturnsExc (e : Exception)
| ReturnsTuple (status : Z) (r_headers : RHeaders) (body : Body).

(** The subclasses of [BaseResponse]. *)
Inductive Variant :=
| Base
| Static (body : Body) (status : Z)
| Callback (callback : PreparedRequest -> CallbackReturn).

Record BaseResponse := {
  method : string;
  url : Url;
  match_querystring : bool;
  match_ : list Matcher;
  call_count : nat;
  content_type : option string;
  headers : option Headers;
  stream : bool;
  variant : Variant
}.

(** The [url] attribute, where a parameter of that name hides it. *)
Definition BaseResponse_url (o : BaseResponse) : Url := url o.

(** The attributes a subclass constructor sets on top of the base ones. *)
Definition subclass (base : BaseResponse) (ct : option string)
    (hs : option Headers) (st : bool) (v : Variant) : BaseResponse :=
  {| method := method base; url := url base;
     match_querystring := match_querystring base; match_ := match_ base;
     call_count := call_count base;
     content_type := ct; headers := hs; stream := st; variant := v |}.

(** The ordered dict under an [HTTPHeaderDict]: [c.get(k)], and [c[k] = vals],
    which keeps the place of a key already present and puts a new key last. *)
Definition container_get (k : string) (c : HTTPHeaderDict)
  : option (list string) :=
  snd <$> List.find (fun e => String.eqb e.1 k) c.

Fixpoint container_set (k : string) (vals : list string) (c : HTTPHeaderDict)
  : HTTPHeaderDict :=
  match c with
  | [] => [(k, vals)]
  | e :: rest =>
      if String.eqb e.1 k then (k, vals) :: rest
      else e :: container_set k vals rest
  end.

(** [HTTPHeaderDict.pop(name, None)]: [del self._container[name.lower()]] when
    the name is there. *)
Definition hd_pop (name : string) (h : HTTPHeaderDict) : HTTPHeaderDict :=
  filter (fun e => e.1 ≠ lower name) h.

(** [HTTPHeaderDict.__setitem__]:
    [self._container[key.lower()] = [key, val]] *)
Definition hd_setitem (name val : string) (h : HTTPHeaderDict)
  : HTTPHeaderDict :=
  container_set (lower name) [name; val] h.

(** [HTTPHeaderDict.add]: [setdefault(key.lower(), [key, val])], and the value
    is appended to the list already there, whose first element keeps the
    name as it was first written. *)
Definition hd_add (name val : string) (h : HTTPHeaderDict) : HTTPHeaderDict :=
  match container_get (lower name) h with
  | Some vals => container_set (lower name) (vals ++ [val]) h
  | None => h ++ [(lower name, [name; val])]
  end.

(** [HTTPHeaderDict.extend(other)] for a dict or a list of pairs: every item
    is added in turn. *)
Definition hd_extend (h : HTTPHeaderDict) (other : Headers) : HTTPHeaderDict :=
  foldl (fun h kv => hd_add kv.1 kv.2 h) h other.

(** [HTTPHeaderDict.get(name)]: the values stored under the name, joined. *)
Definition hd_get (name : string) (h : HTTPHeaderDict) : option string :=
  (fun vals => join ", " (tail vals)) <$> container_get (lower name) h.

(** [HTTPHeaderDict.items()]: each value with the name as first written. *)
Definition hd_items (h : HTTPHeaderDict) : Headers :=
  flat_map (fun e => match e.2 with
                     | name :: vals => map (pair name) vals
                     | [] => []
                     end) h.

(** The values that a dict or a list of pairs gives under a name, in
    whatever letter case the name is written there. *)
Definition header_values (name : string) (hs : Headers) : list string :=
  (filter (fun kv => lower kv.1 = lower name) hs).*2.

(** Python's order on pairs of strings: the first components decide unless
    they are equal. *)
Definition tuple_le (p q : string * string) : Prop :=
  if decide (p.1 = q.1) then String.le p.2 q.2 else String.le p.1 q.1.

Global Instance tuple_le_dec : RelDecision tuple_le.
Proof. intros p q. unfold tuple_le. destruct (decide (p.1 = q.1)); apply _. Defined.

(** [sorted(l)] on a list of pairs *)
Definition sorted (l : list (string * string)) : list (string * string) :=
  merge_sort tuple_le l.

(** ** The matcher and the mock classes *)

Section Matcher.
Context `{!Lib}.

(** [_clean_unicode]; on Python 3 the encoded url is not text, so the url
    itself is scanned for characters above 128. *)
Definition _clean_unicode (url : string) : string :=
  let urllist := urlsplit url in
  let netloc := sp_netloc urllist in
  let url :=
    if _has_unicode netloc then
      let domains :=
        map (fun d => if _has_unicode d then "xn--" +:+ punycode d else d)
            (split "." netloc) in
      urlunsplit {| sp_scheme := sp_scheme urllist;
                    sp_netloc := join "." domains;
                    sp_path := sp_path urllist;
                    sp_query := sp_query urllist;
                    sp_fragment := sp_fragment urllist |}
    else url in
  let chars := list_ascii_of_string url in
  join "" (map (fun x => if (128 <? ord x)%nat then quote x else String x "") chars).

(** [_ensure_url_default_path] *)
Definition _ensure_url_default_path (url : Url) : Url :=
  match url with
  | UStr url =>
      let url_parts := urlsplit url in
      let url_parts :=
        if String.eqb (sp_path url_parts) "" then
          {| sp_scheme := sp_scheme url_parts; sp_netloc := sp_netloc url_parts;
             sp_path := "/"; sp_query := sp_query url_parts;
             sp_fragment := sp_fragment url_parts |}
        else url_parts in
      UStr (urlunsplit url_parts)
  | UPat p => UPat p
  end.

(** [_handle_body]; [BufferIO] refuses an object that is not bytes. *)
Definition _handle_body (body : Body) : result Stream :=
  match body with
  | BodyText s => Ok (BufferIO (utf8 s))
  | BodyBytes b => Ok (BufferIO b)
  | BodyReader fd => Ok (BufferedReader fd)
  | BodyExc _ => Raise (TypeError "a bytes-like object is required")
  end.

(** [BaseResponse._should_match_querystring] *)
Definition _should_match_querystring (self_url : Url)
    (match_querystring_argument : arg bool) : bool :=
  match match_querystring_argument with
  | Given b => b
  | UNSET =>
      match self_url with
      | UPat _ => false
      | UStr u => negb (String.eqb (query (urlparse u)) "")
      end
  end.

(** [BaseResponse.__init__] *)
Definition BaseResponse__init__ (method : string) (url : Url)
    (match_querystring : arg bool) (match_ : list Matcher) : BaseResponse :=
  let url := _ensure_url_default_path url in
  {| method := method; url := url;
     match_querystring := _should_match_querystring url match_querystring;
     match_ := match_; call_count := 0;
     content_type := None; headers := None; stream := false;
     variant := Base |}.

(** The text [__eq__] compares: a pattern's source, or the literal. *)
Definition url_text (u : Url) : string :=
  match u with
  | UPat p => pattern p
  | UStr s => s
  end.

(** [BaseResponse.__eq__] *)
Definition BaseResponse__eq__ (self other : BaseResponse) : bool :=
  if negb (String.eqb (method self) (method other)) then false
  else
    let self_url := url_text (url self) in
    let other_url := url_text (url other) in
    String.eqb self_url other_url.

(** [BaseResponse._url_matches_strict] *)
Definition _url_matches_strict (url other : string) : bool :=
  let url_parsed := urlparse url in
  let other_parsed := urlparse other in
  if negb (bool_decide
             ((scheme url_parsed, netloc url_parsed, path url_parsed)
              = (scheme other_parsed, netloc other_parsed, path other_parsed)))
  then false
  else
    let url_qsl := sorted (parse_qsl (query url_parsed)) in
    let other_qsl := sorted (parse_qsl (query other_parsed)) in
    bool_decide (url_qsl = other_qsl).

(** [BaseResponse._url_matches]; [other] is text already, so its
    re-decoding leaves it as it is. *)
Definition _url_matches (url : Url) (other : string) (match_querystring : bool)
  : bool :=
  match url with
  | UStr url =>
      let url := if _has_unicode url then _clean_unicode url else url in
      if match_querystring then
        let normalize_url := parse_url url in
        _url_matches_strict normalize_url other
      else
        let url_without_qs := (split1 "?" url).1 in
        let other_without_qs := (split1 "?" other).1 in
        let normalized_url_without_qs := parse_url url_without_qs in
        String.eqb normalized_url_without_qs other_without_qs
  | UPat p => re_match p other
  end.

(** The literal url of a mock as [_url_matches] compares it under strict
    matching: cleaned of characters above 128, then normalised. *)
Definition normalized (url : string) : string :=
  parse_url (if _has_unicode url then _clean_unicode url else url).

(** [BaseResponse._body_matches] *)
Fixpoint _body_matches (match_ : list Matcher) (request_body : option bytes)
  : bool :=
  match match_ with
  | [] => true
  | matcher :: rest =>
      if negb (matcher request_body) then false
      else _body_matches rest request_body
  end.

(** [BaseResponse.get_headers] *)
Definition get_headers (self : BaseResponse) : HTTPHeaderDict :=
  let headers0 : HTTPHeaderDict := [] in
  let headers1 :=
    match content_type self with
    | Some ct => hd_setitem "Content-Type" ct headers0
    | None => headers0
    end in
  match headers self with
  | Some (kv :: rest) => hd_extend headers1 (kv :: rest)
  | _ => headers1
  end.

(** [BaseResponse.matches] *)
Definition matches (self : BaseResponse) (request : PreparedRequest)
  : bool * string :=
  if negb (String.eqb (req_method request) (method self)) then
    (false, "Method does not match")
  else if negb (_url_matches (url self) (req_url request) (match_querystring self))
  then (false, "URL does not match")
  else if negb (_body_matches (match_ self) (req_body request)) then
    (false, "Parameters do not match")
  else (true, "").

(** [Response.__init__]; [**kwargs] carries [match_querystring] and [match]. *)
Definition Response__init__ (method : string) (url : Url) (body : Body)
    (json : option JSON) (status : Z) (headers : option Headers)
    (stream : bool) (content_type : arg (option string))
    (match_querystring : arg bool) (match_ : list Matcher)
  : result BaseResponse :=
  let finish (body : Body) (content_type : arg (option string)) :=
    let content_type :=
      match content_type with
      | Given ct => ct
      | UNSET =>
          match body with
          | BodyText s =>
              if _has_unicode s then Some "text/plain; charset=utf-8"
              else Some "text/plain"
          | _ => Some "text/plain"
          end
      end in
    Ok (subclass (BaseResponse__init__ method url match_querystring match_)
                 content_type headers stream (Static body status)) in
  match json with
  | Some j =>
      if body_truthy body then Raise (AssertionError "")
      else
        finish (BodyText (json_dumps j))
               (match content_type with
                | UNSET => Given (Some "application/json")
                | ct => ct
                end)
  | None => finish body content_type
  end.

(** [CallbackResponse.__init__] *)
Definition CallbackResponse__init__ (method : string) (url : Url)
    (callback : PreparedRequest -> CallbackReturn) (stream : bool)
    (content_type : option string) (match_querystring : arg bool)
    (match_ : list Matcher) : BaseResponse :=
  subclass (BaseResponse__init__ method url match_querystring match_)
           content_type None stream (Callback callback).

(** [Response.get_response], [CallbackResponse.get_response] and the
    abstract [BaseResponse.get_response]. *)
Definition get_response (self : BaseResponse) (request : PreparedRequest)
  : result HTTPResponse :=
  match variant self with
  | Base => Raise NotImplementedError
  | Static body status =>
      match body with
      | BodyExc e => Raise e
      | _ =>
          let headers := get_headers self in
          match _handle_body body with
          | Raise e => Raise e
          | Ok body =>
              Ok {| raw_status := status;
                    raw_reason := http_client_responses status;
                    raw_body := body;
                    raw_headers := headers;
                    original_response := {| msg := headers |};
                    preload_content := false |}
          end
      end
  | Callback callback =>
      let headers := get_headers self in
      match callback request with
      | ReturnsExc e => Raise e
      | ReturnsTuple status r_headers body =>
          match body with
          | BodyExc e => Raise e
          | _ =>
              let has_content_type :=
                match r_headers with
                | HDict d => bool_decide ("Content-Type" ∈ d.*1)
                | HList l =>
                    existsb (fun h => String.eqb (lower h.1) "content-type") l
                end in
              let headers :=
                if has_content_type then hd_pop "Content-Type" headers
                else headers in
              match _handle_body body with
              | Raise e => Raise e
              | Ok body =>
                  let headers := hd_extend headers (r_items r_headers) in
                  Ok {| raw_status := status;
                        raw_reason := http_client_responses status;
                        raw_body := body;
                        raw_headers := headers;
                        original_response := {| msg := headers |};
                        preload_content := false |}
              end
          end
      end
  end.
End Matcher.

(** ** The session: registry, call log and object store *)

(** The identity of a mock object. *)
Definition addr := nat.

(** [Call = namedtuple("Call", ["request", "response"])] *)
Record Call := { request : PreparedRequest; response : Obj }.

(** A [RequestsMock].  [objects] is the store of the mock objects created so
    far and [next_id] the first unused identity; [_calls] is the list inside
    the [CallList]; [_patcher] is absent until [start] has run and then tells
    whether the patch is installed. *)
Record RequestsMock := {
  _matches : list addr;
  _calls : list Call;
  assert_all_requests_are_fired : bool;
  response_callback : option (Obj -> Obj);
  passthru_prefixes : list Url;
  _patcher : option bool;
  objects : addr -> BaseResponse;
  next_id : addr
}.

Definition set_matches (l : list addr) (self : RequestsMock) : RequestsMock :=
  {| _matches := l; _calls := _calls self;
     assert_all_requests_are_fired := assert_all_requests_are_fired self;
     response_callback := response_callback self;
     passthru_prefixes := passthru_prefixes self;
     _patcher := _patcher self; objects := objects self;
     next_id := next_id self |}.

Definition set_calls (l : list Call) (self : RequestsMock) : RequestsMock :=
  {| _matches := _matches self; _calls := l;
     assert_all_requests_are_fired := assert_all_requests_are_fired self;
     response_callback := response_callback self;
     passthru_prefixes := passthru_prefixes self;
     _patcher := _patcher self; objects := objects self;
     next_id := next_id self |}.

Definition set_passthru_prefixes (l : list Url) (self : RequestsMock)
  : RequestsMock :=
  {| _matches := _matches self; _calls := _calls self;
     assert_all_requests_are_fired := assert_all_requests_are_fired self;
     response_callback := response_callback self;
     passthru_prefixes := l;
     _patcher := _patcher self; objects := objects self;
     next_id := next_id self |}.

Definition set_patcher (p : option bool) (self : RequestsMock) : RequestsMock :=
  {| _matches := _matches self; _calls := _calls self;
     assert_all_requests_are_fired := assert_all_requests_are_fired self;
     response_callback := response_callback self;
     passthru_prefixes := passthru_prefixes self;
     _patcher := p; objects := objects self;
     next_id := next_id self |}.

Definition set_objects (o : addr -> BaseResponse) (n : addr)
    (self : RequestsMock) : RequestsMock :=
  {| _matches := _matches self; _calls := _calls self;
     assert_all_requests_are_fired := assert_all_requests_are_fired self;
     response_callback := response_callback self;
     passthru_prefixes := passthru_prefixes self;
     _patcher := _patcher self; objects := o;
     next_id := n |}.

(** [registered()], read through the store. *)
Definition registered (self : RequestsMock) : list BaseResponse :=
  objects self <$> _matches self.

(** *** The monad of methods: state passing with exceptions *)

Definition M (A : Type) : Type := RequestsMock -> result A * RequestsMock.

Definition ret {A} (a : A) : M A := fun self => (Ok a, self).

Definition raise {A} (e : Exception) : M A := fun self => (Raise e, self).

Definition bind {A B} (m : M A) (k : A -> M B) : M B :=
  fun self =>
    match m self with
    | (Ok a, self') => k a self'
    | (Raise e, self') => (Raise e, self')
    end.

Definition gets {A} (f : RequestsMock -> A) : M A := fun self => (Ok (f self), self).

Definition modify (f : RequestsMock -> RequestsMock) : M unit :=
  fun self => (Ok tt, f self).

Definition lift {A} (r : result A) : M A := fun self => (r, self).

(** [try: m except ValueError: handler] *)
Definition try_except_ValueError {A} (m : M A) (handler : M A) : M A :=
  fun self =>
    match m self with
    | (Raise (ValueError _), self') => handler self'
    | r => r
    end.

Notation "'let*' x ':=' m 'in' k" := (bind m (fun x => k))
  (at level 10, x pattern, m at level 100, k at level 200).
Notation "m '>>' k" := (bind m (fun _ => k))
  (at level 100, k at level 200, right associativity).

(** The object [o] after [o.call_count += 1] *)
Definition count_call (o : BaseResponse) : BaseResponse :=
  {| method := method o; url := url o;
     match_querystring := match_querystring o;
     match_ := match_ o; call_count := S (call_count o);
     content_type := content_type o; headers := headers o;
     stream := stream o; variant := variant o |}.

(** [match.call_count += 1] on the object [a] *)
Definition incr_call_count (a : addr) : M unit :=
  modify (fun self =>
    set_objects (<[a := count_call (objects self a)]> (objects self))
                (next_id self) self).

(** Creating a mock object gives it a fresh identity. *)
Definition new_object (o : BaseResponse) : M addr :=
  fun self =>
    (Ok (next_id self),
     set_objects (<[next_id self := o]> (objects self)) (S (next_id self)) self).

(** [CallList.add] *)
Definition calls_add (request : PreparedRequest) (response : Obj) : M unit :=
  modify (fun self =>
    set_calls (_calls self ++ [{| request := request; response := response |}]) self).

(** [RequestsMock.reset] (with [CallList.reset]) *)
Definition reset : M unit :=
  modify (fun self => set_calls [] (set_matches [] self)).

(** [itertools.groupby(l, key)]: the maximal runs of consecutive items with
    the same key, in order, each with its key. *)
Fixpoint groupby {A K : Type} `{EqDecision K} (key : A -> K) (l : list A)
  : list (K * list A) :=
  match l with
  | [] => []
  | x :: l' =>
      match groupby key l' with
      | (k, g) :: gs =>
          if decide (key x = k) then (k, x :: g) :: gs
          else (key x, [x]) :: (k, g) :: gs
      | [] => [(key x, [x])]
      end
  end.

(** [list.remove(x)]: delete the first item equal to [x]; [eqx] is the
    comparison with [x]. *)
Fixpoint list_remove (eqx : addr -> bool) (l : list addr) : result (list addr) :=
  match l with
  | [] => Raise (ValueError "list.remove(x): x not in list")
  | a :: l' =>
      if eqx a then Ok l'
      else match list_remove eqx l' with
           | Ok r => Ok (a :: r)
           | Raise e => Raise e
           end
  end.

(** [x in l] *)
Definition list_contains (eqx : addr -> bool) (l : list addr) : bool :=
  existsb eqx l.

(** [l.index(x)] *)
Definition list_index (eqx : addr -> bool) (l : list addr) : option nat :=
  fst <$> list_find (fun a => Is_true (eqx a)) l.

Lemma list_remove_shorter eqx l l' :
  list_remove eqx l = Ok l' -> length l' < length l.
Proof.
  revert l'. induction l as [|a l IH]; intros l' Hr; simpl in Hr; [done|].
  destruct (eqx a).
  - inversion Hr; subst. simpl. lia.
  - destruct (list_remove eqx l) as [r|e]; [|done].
    inversion Hr; subst. simpl. specialize (IH r eq_refl). lia.
Qed.

(** A value together with the equation that names it. *)
Definition inspect {A : Type} (x : A) : { y : A | x = y } := exist _ x eq_refl.

(** [while x in l: l.remove(x)] *)
Equations? remove_loop (eqx : addr -> bool) (l : list addr)
  : result (list addr) by wf (length l) lt :=
  remove_loop eqx l with inspect (list_contains eqx l) := {
    | exist _ false _ => Ok l
    | exist _ true _ with inspect (list_remove eqx l) := {
        | exist _ (Ok l') Hr => remove_loop eqx l'
        | exist _ (Raise e) _ => Raise e } }.
Proof. by apply (list_remove_shorter eqx). Qed.

(** The result of one scan of the registry by [_find_match]: the loop ran
    to its end, or it returned from inside on a second match. *)
Inductive Scan :=
| Finished (found : option nat) (found_match : option addr)
           (match_failed_reasons : list string)
| SecondMatch (found : nat) (match_failed_reasons : list string).

Definition backslash : ascii := "092"%char.

Definition repr_hex_digit (n : nat) : ascii :=
  nth n (list_ascii_of_string "0123456789abcdef") "0"%char.

(** One character inside [repr(s)]: the quote in use and the backslash are
    escaped, tab, newline and return have their letters, and the other
    characters that do not print are written [\xNN]. *)
Definition repr_char (quote c : ascii) : string :=
  if Ascii.eqb c quote || Ascii.eqb c backslash then
    String backslash (String c "")
  else if Ascii.eqb c "009"%char then String backslash "t"
  else if Ascii.eqb c "010"%char then String backslash "n"
  else if Ascii.eqb c "013"%char then String backslash "r"
  else if ((ord c <? 32) || ((127 <=? ord c) && (ord c <=? 160))
           || (ord c =? 173))%nat then
    String backslash
      (String "x" (String (repr_hex_digit (ord c / 16))
                          (String (repr_hex_digit (ord c mod 16)) "")))
  else String c "".

(** [repr(s)] of a text: in single quotes, unless the text holds a single
    quote and no double quote. *)
Definition repr (s : string) : string :=
  let chars := list_ascii_of_string s in
  let quote : ascii :=
    if existsb (Ascii.eqb "'"%char) chars
       && negb (existsb (Ascii.eqb "034"%char) chars)
    then "034"%char else "'"%char in
  String quote
    (foldr (fun c r => repr_char quote c +:+ r) (String quote "") chars).

(** [repr] of a pattern compiled without flags, which is also its [str]:
    the [repr] of its source, cut after 200 characters. *)
Definition repr_pattern (p : Pattern) : string :=
  "re.compile(" +:+ substring 0 200 (repr (pattern p)) +:+ ")".

(** [str(url)] *)
Definition str_url (u : Url) : string :=
  match u with
  | UStr s => s
  | UPat p => repr_pattern p
  end.

Definition repr_url (u : Url) : string :=
  match u with
  | UStr s => repr s
  | UPat p => repr_pattern p
  end.

(** The argument [method_or_response] of [add], [remove], [replace] and
    [upsert]: a mock object, or a method name. *)
Inductive MethodOrResponse :=
| IsResponse (a : addr)
| IsMethod (m : string).

(** The keyword arguments [add], [replace] and [upsert] pass on to
    [Response]. *)
Record Kwargs := {
  kw_json : option JSON;
  kw_status : Z;
  kw_headers : arg (option Headers);
  kw_stream : bool;
  kw_content_type : arg (option string);
  kw_match_querystring : arg bool;
  kw_match : list Matcher
}.

Definition no_kwargs : Kwargs :=
  {| kw_json := None; kw_status := 200; kw_headers := UNSET;
     kw_stream := false; kw_content_type := UNSET;
     kw_match_querystring := UNSET; kw_match := [] |}.

(** [kwargs.setdefault("headers", adding_headers)] *)
Definition setdefault_headers (adding_headers : Headers) (kwargs : Kwargs)
  : Kwargs :=
  {| kw_json := kw_json kwargs; kw_status := kw_status kwargs;
     kw_headers := match kw_headers kwargs with
                   | UNSET => Given (Some adding_headers)
                   | h => h
                   end;
     kw_stream := kw_stream kwargs; kw_content_type := kw_content_type kwargs;
     kw_match_querystring := kw_match_querystring kwargs;
     kw_match := kw_match kwargs |}.

(** [RequestsMock.__init__] *)
Definition RequestsMock__init__ (assert_all_requests_are_fired : bool)
    (response_callback : option (Obj -> Obj)) (passthru_prefixes : list Url)
    (objects : addr -> BaseResponse) (next_id : addr) : RequestsMock :=
  {| _matches := []; _calls := [];
     assert_all_requests_are_fired := assert_all_requests_are_fired;
     response_callback := response_callback;
     passthru_prefixes := passthru_prefixes;
     _patcher := None; objects := objects; next_id := next_id |}.

(** ** The registry operations and the dispatcher *)

Section Dispatcher.
Context `{!Lib}.

(** The loop of [_find_match] over [enumerate(self._matches)], from index
    [i] on. *)
Fixpoint scan (objects : addr -> BaseResponse) (request : PreparedRequest)
    (l : list addr) (i : nat) (found : option nat) (found_match : option addr)
    (match_failed_reasons : list string) : Scan :=
  match l with
  | [] => Finished found found_match match_failed_reasons
  | match_ :: rest =>
      let '(match_result, reason) := matches (objects match_) request in
      if match_result then
        match found with
        | None => scan objects request rest (S i) (Some i) (Some match_)
                       match_failed_reasons
        | Some f => SecondMatch f match_failed_reasons
        end
      else scan objects request rest (S i) found found_match
                (match_failed_reasons ++ [reason])
  end.

(** [RequestsMock._find_match]; [self._matches.pop(found)] deletes the item
    at [found] and returns it. *)
Definition _find_match (request : PreparedRequest)
  : M (option addr * list string) :=
  let* self := gets id in
  match scan (objects self) request (_matches self) 0 None None [] with
  | SecondMatch found match_failed_reasons =>
      match _matches self !! found with
      | Some popped =>
          modify (set_matches (delete found (_matches self))) >>
          ret (Some popped, match_failed_reasons)
      | None => raise (IndexError "pop index out of range")
      end
  | Finished _ found_match match_failed_reasons =>
      ret (found_match, match_failed_reasons)
  end.

(** [RequestsMock._parse_request_params] *)
Definition _parse_request_params (url : string) : gmap string ParamValue :=
  foldl (fun params '(key, val) =>
           let values := map snd val in
           let values :=
             match values with
             | [v] => Single v
             | _ => Multi values
             end in
           <[key := values]> params)
        ∅
        (groupby fst (parse_qsl (query (urlparse url)))).

(** One line of the list of registered mocks in the error message:
    ["- {} {} {}\n".format(m.method, m.url, reason)]. *)
Definition match_line (m : BaseResponse) (reason : string) : string :=
  "- " +:+ method m +:+ " " +:+ str_url (url m) +:+ " " +:+ reason +:+ nl.

(** The loop of [_on_request] that lists the registered mocks with their
    failure reasons. *)
Fixpoint available_matches (ms : list BaseResponse) (i : nat)
    (match_failed_reasons : list string) (error_msg : string) : result string :=
  match ms with
  | [] => Ok error_msg
  | m :: rest =>
      match match_failed_reasons !! i with
      | None => Raise (IndexError "list index out of range")
      | Some reason =>
          available_matches rest (S i) match_failed_reasons
            (error_msg +:+ match_line m reason)
      end
  end.

(** The head of the message of the error for an unmatched request. *)
Definition refused_head (request : PreparedRequest) : string :=
  "Connection refused by Responses - the call doesn't "
  +:+ "match any registered mock." +:+ nl +:+ nl
  +:+ "Request: " +:+ nl
  +:+ "- " +:+ req_method request +:+ " " +:+ req_url request +:+ nl +:+ nl
  +:+ "Available matches:" +:+ nl.

(** [resp_callback(response) if resp_callback else response] *)
Definition apply_callback (resp_callback : option (Obj -> Obj)) (response : Obj)
  : Obj :=
  match resp_callback with
  | Some f => f response
  | None => response
  end.

(** [raise response] *)
Definition raise_obj {A} (response : Obj) : M A :=
  match response with
  | ObjExc e => raise e
  | ObjResp _ => raise (TypeError "exceptions must derive from BaseException")
  end.

(** The test of [_on_request] on the passthrough prefixes. *)
Definition passthru (prefixes : list Url) (request : PreparedRequest) : bool :=
  existsb (fun p => match p with
                    | UPat p => re_match p (req_url request)
                    | UStr p => startswith (req_url request) p
                    end) prefixes.

(** The part of [_on_request] that answers with the mock [match_] once one
    is found: materialise, hand over to the transport, count and log. *)
Definition respond_with (match_ : addr) (request : PreparedRequest) : M Obj :=
  let* resp_callback := gets response_callback in
  let* self_match := gets (fun self => objects self match_) in
  let built :=
    match get_response self_match request with
    | Ok raw => build_response request raw
    | Raise e => Raise e
    end in
  match built with
  | Raise e =>
      incr_call_count match_ >>
      calls_add request (ObjExc e) >>
      raise e
  | Ok response =>
      let response :=
        if negb (stream self_match) then content response else response in
      let response := apply_callback resp_callback (ObjResp response) in
      incr_call_count match_ >>
      calls_add request response >>
      ret response
  end.

(** The part of [_on_request] for a request that no mock matches. *)
Definition unmatched (match_failed_reasons : list string)
    (request : PreparedRequest) : M Obj :=
  let* resp_callback := gets response_callback in
  let* prefixes := gets passthru_prefixes in
  if passthru prefixes request then lift (_real_send request)
  else
    let error_msg := refused_head request in
    let* ms := gets registered in
    let* error_msg :=
      lift (available_matches ms 0 match_failed_reasons error_msg) in
    let response := ObjExc (ConnectionError error_msg (Some request)) in
    calls_add request response >>
    let response := apply_callback resp_callback response in
    raise_obj response.

(** [RequestsMock._on_request] *)
Definition _on_request (request : PreparedRequest) : M Obj :=
  let* (match_, match_failed_reasons) := _find_match request in
  let request := set_params request (_parse_request_params (path_url request)) in
  match match_ with
  | None => unmatched match_failed_reasons request
  | Some match_ => respond_with match_ request
  end.

(** [n] dispatches of the same request, one after the other. *)
Definition dispatches (n : nat) (request : PreparedRequest)
    (self : RequestsMock) : RequestsMock :=
  Nat.iter n (fun self => (_on_request request self).2) self.

(** [Response(method=m, url=url, body=body, **kwargs)] *)
Definition new_Response (m : string) (url : Url) (body : Body) (kwargs : Kwargs)
  : result BaseResponse :=
  Response__init__ m url body (kw_json kwargs) (kw_status kwargs)
    (match kw_headers kwargs with Given h => h | UNSET => None end)
    (kw_stream kwargs) (kw_content_type kwargs)
    (kw_match_querystring kwargs) (kw_match kwargs).

(** [RequestsMock.add] *)
Definition add (method : MethodOrResponse) (url : Url) (body : Body)
    (adding_headers : option Headers) (kwargs : Kwargs) : M unit :=
  match method with
  | IsResponse a => modify (fun self => set_matches (_matches self ++ [a]) self)
  | IsMethod m =>
      let kwargs :=
        match adding_headers with
        | Some h => setdefault_headers h kwargs
        | None => kwargs
        end in
      let* r := lift (new_Response m url body kwargs) in
      let* a := new_object r in
      modify (fun self => set_matches (_matches self ++ [a]) self)
  end.

(** [RequestsMock.add_passthru] *)
Definition add_passthru (prefix : Url) : M unit :=
  let prefix :=
    match prefix with
    | UStr p => if _has_unicode p then UStr (_clean_unicode p) else UStr p
    | UPat p => UPat p
    end in
  modify (fun self => set_passthru_prefixes (passthru_prefixes self ++ [prefix]) self).

(** [RequestsMock.remove] *)
Definition remove (method_or_response : MethodOrResponse) (url : Url) : M unit :=
  let* response :=
    match method_or_response with
    | IsResponse a => gets (fun self => objects self a)
    | IsMethod m => ret (BaseResponse__init__ m url UNSET [])
    end in
  let* self := gets id in
  let* l := lift (remove_loop
                    (fun a => BaseResponse__eq__ (objects self a) response)
                    (_matches self)) in
  modify (set_matches l).

(** The mock [replace] installs: the object it is given, or a new
    [Response] built from its arguments. *)
Definition replacement (method_or_response : MethodOrResponse) (url : Url)
    (body : Body) (kwargs : Kwargs) (self : RequestsMock) : result BaseResponse :=
  match method_or_response with
  | IsResponse a => Ok (objects self a)
  | IsMethod m => new_Response m url body kwargs
  end.

(** [RequestsMock.replace]; the extra positional arguments [args] are not
    used.  A new [Response] gets its identity when it enters the registry. *)
Definition replace (method_or_response : MethodOrResponse) (url : Url)
    (body : Body) (args : option Headers) (kwargs : Kwargs) : M unit :=
  let* self := gets id in
  let* response := lift (replacement method_or_response url body kwargs self) in
  let url :=
    match method_or_response with
    | IsResponse _ => BaseResponse_url response
    | IsMethod _ => url
    end in
  match list_index (fun a => BaseResponse__eq__ (objects self a) response)
                   (_matches self) with
  | None =>
      raise (ValueError ("Response is not registered for URL " +:+ str_url url))
  | Some index =>
      let* a := match method_or_response with
                | IsResponse a => ret a
                | IsMethod _ => new_object response
                end in
      modify (fun self => set_matches (<[index := a]> (_matches self)) self)
  end.

(** [RequestsMock.upsert] *)
Definition upsert (method_or_response : MethodOrResponse) (url : Url)
    (body : Body) (args : option Headers) (kwargs : Kwargs) : M unit :=
  try_except_ValueError
    (replace method_or_response url body args kwargs)
    (add method_or_response url body args kwargs).

(** [RequestsMock.add_callback] *)
Definition add_callback (method : string) (url : Url)
    (callback : PreparedRequest -> CallbackReturn) (match_querystring : bool)
    (content_type : option string) : M unit :=
  let* a := new_object (CallbackResponse__init__ method url callback false
                          content_type (Given match_querystring) []) in
  modify (fun self => set_matches (_matches self ++ [a]) self).

(** [RequestsMock.start]: the patch is created and installed. *)
Definition start : M unit := modify (set_patcher (Some true)).

(** The text of the list of [(method, url)] pairs in the teardown error. *)
Definition repr_pairs (l : list BaseResponse) : string :=
  "[" +:+ join ", " (map (fun match_ =>
                           "(" +:+ repr (method match_) +:+ ", "
                               +:+ repr_url (url match_) +:+ ")") l) +:+ "]".

(** [RequestsMock.stop] *)
Definition stop (allow_assert : bool) : M unit :=
  let* patcher := gets _patcher in
  match patcher with
  | None => raise (AttributeError "'RequestsMock' object has no attribute '_patcher'")
  | Some _ =>
      modify (set_patcher (Some false)) >>
      let* fired := gets assert_all_requests_are_fired in
      if negb fired then ret tt
      else if negb allow_assert then ret tt
      else
        let* not_called :=
          gets (fun self => filter (fun m => call_count m = 0) (registered self)) in
        match not_called with
        | [] => ret tt
        | _ => raise (AssertionError
                        ("Not all requests have been executed "
                           +:+ repr_pairs not_called))
        end
  end.

(** [RequestsMock.__enter__] *)
Definition __enter__ : M unit := start.

(** [RequestsMock.__exit__]; [type] is the exception the body of the scope
    raised, if any. *)
Definition __exit__ (type : option Exception) : M bool :=
  let success := match type with None => true | Some _ => false end in
  stop success >>
  reset >>
  ret success.

(** *** Notions the properties are stated with *)

(** The mock at [a] matches the request. *)
Definition matching (objects : addr -> BaseResponse) (request : PreparedRequest)
    (a : addr) : Prop :=
  (matches (objects a) request).1 = true.

#[export] Instance matching_dec objects request a :
  Decision (matching objects request a).
Proof. unfold matching. apply _. Defined.

(** The reasons the mocks of [l] give for not matching. *)
Definition reasons_of (objects : addr -> BaseResponse)
    (request : PreparedRequest) (l : list addr) : list string :=
  (fun a => (matches (objects a) request).2) <$> l.

(** The request as the dispatcher passes it on: with its [params] set. *)
Definition with_params (request : PreparedRequest) : PreparedRequest :=
  set_params request (_parse_request_params (path_url request)).

(** The session after [stop] and [reset]. *)
Definition torn_down (self : RequestsMock) : RequestsMock :=
  set_calls [] (set_matches [] (set_patcher (Some false) self)).

End Dispatcher.

(** [sub] occurs in [s]. *)
Definition occurs_in (sub s : string) : Prop :=
  exists pre post, s = pre +:+ sub +:+ post.

(** The lines for the mocks [ms] with the reasons [rs], one after the other. *)
Definition listing (ms : list BaseResponse) (rs : list string) : string :=
  join "" (zip_with match_line ms rs).

(** The value stored for a run of pairs: the single value, or the list. *)
Definition collapse (run : list (string * string)) : ParamValue :=
  match map snd run with
  | [v] => Single v
  | values => Multi values
  end.

(** The values of the key [k] in the list of pairs [l], in order. *)
Definition values_of (k : string) (l : list (string * string)) : list string :=
  snd <$> filter (fun kv => kv.1 = k) l.


(** ** An implementation of the library functions on ASCII text

    [ascii_lib] follows the Python functions on urls, bodies and JSON texts
    made of printable ASCII characters without percent escapes; the examples
    are evaluated with it.  It has no network: a real send is refused, a
    transport response is the raw response with its request, and reading a
    file body yields no bytes. *)

Module AsciiLib.

Definition is_alpha (c : ascii) : bool :=
  ((65 <=? ord c) && (ord c <=? 90) || (97 <=? ord c) && (ord c <=? 122))%nat.

Definition is_digit (c : ascii) : bool := ((48 <=? ord c) && (ord c <=? 57))%nat.

Definition is_scheme_char (c : ascii) : bool :=
  is_alpha c || is_digit c
  || Ascii.eqb c "+" || Ascii.eqb c "-" || Ascii.eqb c ".".

(** The longest prefix without a character of [stop], and the rest. *)
Fixpoint span_until (stop : ascii -> bool) (s : string) : string * string :=
  match s with
  | "" => ("", "")
  | String a s' =>
      if stop a then ("", s)
      else let '(h, t) := span_until stop s' in (String a h, t)
  end.

Definition uses_netloc : list string :=
  [""; "ftp"; "http"; "gopher"; "nntp"; "telnet"; "imap"; "wais"; "file";
   "mms"; "https"; "shttp"; "snews"; "prospero"; "rtsp"; "rtspu"; "rsync";
   "svn"; "svn+ssh"; "sftp"; "nfs"; "git"; "git+ssh"; "ws"; "wss"].

Definition uses_params : list string :=
  [""; "ftp"; "hdl"; "prospero"; "http"; "imap"; "https"; "shttp"; "rtsp";
   "rtspu"; "sip"; "sips"; "mms"; "sftp"; "tel"].

Definition urlsplit (url : string) : SplitResult :=
  let '(scheme, url) :=
    match split1 ":" url with
    | (String c pre, Some rest) =>
        if is_alpha c && forallb is_scheme_char (list_ascii_of_string pre)
        then (lower (String c pre), rest)
        else ("", url)
    | _ => ("", url)
    end in
  let '(netloc, url) :=
    match url with
    | String "/" (String "/" rest) =>
        span_until (fun c => Ascii.eqb c "/" || Ascii.eqb c "?" || Ascii.eqb c "#")
                   rest
    | _ => ("", url)
    end in
  let '(url, fragment) := split1 "#" url in
  let '(url, query) := split1 "?" url in
  {| sp_scheme := scheme; sp_netloc := netloc; sp_path := url;
     sp_query := default "" query; sp_fragment := default "" fragment |}.

Definition urlunsplit (p : SplitResult) : string :=
  let url := sp_path p in
  let url :=
    if negb (String.eqb (sp_netloc p) "")
       || (negb (String.eqb (sp_scheme p) "")
           && bool_decide (sp_scheme p ∈ uses_netloc)
           && negb (startswith url "//"))
    then
      let url :=
        if negb (String.eqb url "") && negb (startswith url "/")
        then "/" +:+ url else url in
      "//" +:+ sp_netloc p +:+ url
    else url in
  let url :=
    if negb (String.eqb (sp_scheme p) "") then sp_scheme p +:+ ":" +:+ url
    else url in
  let url :=
    if negb (String.eqb (sp_query p) "") then url +:+ "?" +:+ sp_query p
    else url in
  if negb (String.eqb (sp_fragment p) "") then url +:+ "#" +:+ sp_fragment p
  else url.

(** [_splitparams]: the last path segment is cut at its first [;]. *)
Definition splitparams (url : string) : string * string :=
  match reverse (split "/" url) with
  | last :: init =>
      match split1 ";" last with
      | (h, Some p) => (join "/" (reverse (h :: init)), p)
      | _ => (url, "")
      end
  | [] => (url, "")
  end.

Definition urlparse (url : string) : ParseResult :=
  let p := urlsplit url in
  let '(url, params) :=
    if bool_decide (sp_scheme p ∈ uses_params) then splitparams (sp_path p)
    else (sp_path p, "") in
  {| scheme := sp_scheme p; netloc := sp_netloc p; path := url;
     params := params; query := sp_query p; fragment := sp_fragment p |}.

Fixpoint plus_to_space (s : string) : string :=
  match s with
  | "" => ""
  | String a s' => String (if Ascii.eqb a "+" then " "%char else a) (plus_to_space s')
  end.

(** [parse_qsl(qs)] with its defaults: fields without [=] or with a blank
    value are dropped. *)
Definition parse_qsl (qs : string) : list (string * string) :=
  omap (fun name_value =>
          match split1 "=" name_value with
          | (name, Some value) =>
              if String.eqb value "" then None
              else Some (plus_to_space name, plus_to_space value)
          | _ => None
          end)
       (split "&" qs).

(** urllib3 lowers the scheme and the host. *)
Definition parse_url (url : string) : string :=
  let p := urlsplit url in
  urlunsplit {| sp_scheme := sp_scheme p; sp_netloc := lower (sp_netloc p);
                sp_path := sp_path p; sp_query := sp_query p;
                sp_fragment := sp_fragment p |}.

Definition hex_digit (n : nat) : ascii :=
  if (n <? 10)%nat then ascii_of_nat (48 + n) else ascii_of_nat (55 + n).

Definition percent (n : nat) : string :=
  String "%" (String (hex_digit (n / 16)) (String (hex_digit (n mod 16)) "")).

Definition is_unreserved (c : ascii) : bool :=
  is_alpha c || is_digit c || Ascii.eqb c "_" || Ascii.eqb c "."
  || Ascii.eqb c "-" || Ascii.eqb c "~" || Ascii.eqb c "/".

(** [quote(x)] of one character: its UTF-8 bytes, percent-encoded. *)
Definition quote (x : ascii) : string :=
  if is_unreserved x then String x ""
  else if (ord x <? 128)%nat then percent (ord x)
  else percent (192 + ord x / 64) +:+ percent (128 + ord x mod 64).

(** Punycode of a label of basic code points: the label and the delimiter. *)
Definition punycode (d : string) : string :=
  match d with
  | "" => ""
  | _ => d +:+ "-"
  end.

Definition utf8 (s : string) : bytes :=
  flat_map (fun c =>
              if (ord c <? 128)%nat then [byte_of_ascii c]
              else [byte_of_ascii (ascii_of_nat (192 + ord c / 64));
                    byte_of_ascii (ascii_of_nat (128 + ord c mod 64))])
           (list_ascii_of_string s).

Fixpoint escape (s : string) : string :=
  match s with
  | "" => ""
  | String a s' =>
      if Ascii.eqb a "034" || Ascii.eqb a "\"
      then String "\" (String a (escape s'))
      else String a (escape s')
  end.

Definition json_string (s : string) : string := dq +:+ escape s +:+ dq.

(** [json.dumps] with its default separators. *)
Fixpoint json_dumps (j : JSON) : string :=
  match j with
  | JNull => "null"
  | JBool true => "true"
  | JBool false => "false"
  | JNum n => pretty n
  | JStr s => json_string s
  | JArr l => "[" +:+ join ", " (map json_dumps l) +:+ "]"
  | JObj kvs =>
      "{" +:+ join ", " (map (fun kv => let '(k, v) := kv in
                                       json_string k +:+ ": " +:+ json_dumps v) kvs)
          +:+ "}"
  end.










Definition reasons : list (nat * string) :=
  [(100, "Continue"); (101, "Switching Protocols"); (102, "Processing");
   (200, "OK"); (201, "Created"); (202, "Accepted");
   (203, "Non-Authoritative Information"); (204, "No Content");
   (205, "Reset Content"); (206, "Partial Content"); (207, "Multi-Status");
   (208, "Already Reported"); (226, "IM Used");
   (300, "Multiple Choices"); (301, "Moved Permanently"); (302, "Found");
   (303, "See Other"); (304, "Not Modified"); (305, "Use Proxy");
   (307, "Temporary Redirect"); (308, "Permanent Redirect");
   (400, "Bad Request"); (401, "Unauthorized"); (402, "Payment Required");
   (403, "Forbidden"); (404, "Not Found"); (405, "Method Not Allowed");
   (406, "Not Acceptable"); (407, "Proxy Authentication Required");
   (408, "Request Timeout"); (409, "Conflict"); (410, "Gone");
   (411, "Length Required"); (412, "Precondition Failed");
   (413, "Request Entity Too Large"); (414, "Request-URI Too Long");
   (415, "Unsupported Media Type"); (416, "Requested Range Not Satisfiable");
   (417, "Expectation Failed"); (421, "Misdirected Request");
   (422, "Unprocessable Entity"); (423, "Locked"); (424, "Failed Dependency");
   (426, "Upgrade Required"); (428, "Precondition Required");
   (429, "Too Many Requests"); (431, "Request Header Fields Too Large");
   (451, "Unavailable For Legal Reasons");
   (500, "Internal Server Error"); (501, "Not Implemented");
   (502, "Bad Gateway"); (503, "Service Unavailable"); (504, "Gateway Timeout");
   (505, "HTTP Version Not Supported"); (506, "Variant Also Negotiates");
   (507, "Insufficient Storage"); (508, "Loop Detected"); (510, "Not Extended");
   (511, "Network Authentication Required")].

Definition http_client_responses (status : Z) : option string :=
  snd <$> List.find (fun kv => Z.eqb (Z.of_nat kv.1) status) reasons.

Definition path_url (request : PreparedRequest) : string :=
  let p := urlsplit (req_url request) in
  let path := if String.eqb (sp_path p) "" then "/" else sp_path p in
  if String.eqb (sp_query p) "" then path else path +:+ "?" +:+ sp_query p.

Definition build_response (request : PreparedRequest) (raw : HTTPResponse)
  : result RResponse :=
  Ok {| resp_raw := raw; resp_request := request; resp_content := None |}.

Definition content (r : RResponse) : RResponse :=
  {| resp_raw := resp_raw r; resp_request := resp_request r;
     resp_content :=
       match resp_content r with
       | Some b => Some b
       | None => match raw_body (resp_raw r) with
                 | BufferIO b => Some b
                 | BufferedReader _ => Some []
                 end
       end |}.

Definition _real_send (request : PreparedRequest) : result Obj :=
  Raise (ConnectionError "Network is unreachable" (Some request)).

End AsciiLib.

Definition ascii_lib : Lib :=
  {| urlparse := AsciiLib.urlparse; urlsplit := AsciiLib.urlsplit;
     urlunsplit := AsciiLib.urlunsplit; parse_qsl := AsciiLib.parse_qsl;
     parse_url := AsciiLib.parse_url; quote := AsciiLib.quote;
     punycode := AsciiLib.punycode; json_dumps := AsciiLib.json_dumps;
     utf8 := AsciiLib.utf8;
     http_client_responses := AsciiLib.http_client_responses;
     path_url := AsciiLib.path_url;
     build_response := AsciiLib.build_response;
     content := AsciiLib.content; _real_send := AsciiLib._real_send |}.

(** ** Sessions used in the examples *)

(** The state of an identity before an object is created there. *)
Definition blank : BaseResponse :=
  {| method := ""; url := UStr ""; match_querystring := false; match_ := [];
     call_count := 0; content_type := None; headers := None; stream := false;
     variant := Base |}.

Definition no_objects : addr -> BaseResponse := fun _ => blank.

(** The session a method call leaves behind. *)
Definition after {A : Type} (m : M A) (self : RequestsMock) : RequestsMock :=
  (m self).2.

Definition GET (url : string) : PreparedRequest :=
  {| req_method := "GET"; req_url := url; req_body := None; req_params := None |}.

Section Examples.
#[local] Existing Instance ascii_lib.

(** [with RequestsMock() as m:] two mocks are added and the first is called. *)
Definition teardown_session : RequestsMock :=
  after (__enter__ >>
         add (IsMethod "GET") (UStr "http://x/") (BodyText "x") None no_kwargs >>
         add (IsMethod "GET") (UStr "http://y/") (BodyText "y") None no_kwargs >>
         _on_request (GET "http://x/"))
        (RequestsMock__init__ true None [] no_objects 0).

(** Two mocks for the same url. *)
Definition twice_session : RequestsMock :=
  after (add (IsMethod "GET") (UStr "http://x/") (BodyText "one") None no_kwargs >>
         add (IsMethod "GET") (UStr "http://x/") (BodyText "two") None no_kwargs)
        (RequestsMock__init__ true None [] no_objects 0).

(** One mock, and a passthrough prefix. *)
Definition passthru_session : RequestsMock :=
  after (add (IsMethod "GET") (UStr "http://x/") (BodyText "one") None no_kwargs >>
         add_passthru (UStr "http://real/"))
        (RequestsMock__init__ true None [] no_objects 0).

(** One mock, and a response callback that puts its own error in place of
    what it is given. *)
Definition callback_session : RequestsMock :=
  after (add (IsMethod "GET") (UStr "http://y/") (BodyText "y") None no_kwargs)
        (RequestsMock__init__ true (Some (fun _ => ObjExc (UserError "replaced")))
           [] no_objects 0).

End Examples.

(** The mock of the query-string example. *)
Definition qs_mock : result BaseResponse :=
  @Response__init__ ascii_lib "GET" (UStr "http://x/?a=1&b=2") (BodyText "")
    None 200 None false UNSET (Given true) [].

(** ** Inspection of the call log *)


Section Inspection.
Context `{!Lib}.




End Inspection.

(** ** More sessions for the examples *)

Section MoreExamples.
#[local] Existing Instance ascii_lib.


(** A started session that does not assert that all requests are fired,
    with a mock that is never called. *)
Definition lenient_session : RequestsMock :=
  after (__enter__ >>
         add (IsMethod "GET") (UStr "http://x/") (BodyText "x") None no_kwargs)
        (RequestsMock__init__ false None [] no_objects 0).

(** A mock whose body is an exception. *)
Definition raising_session : RequestsMock :=
  after (add (IsMethod "GET") (UStr "http://x/") (BodyExc (UserError "boom"))
             None no_kwargs)
        (RequestsMock__init__ true None [] no_objects 0).

(** A callback that sets its own content type, in lower case. *)
Definition json_callback (request : PreparedRequest) : CallbackReturn :=
  ReturnsTuple 201 (HList [("content-type", "application/json")]) (BodyText "{}").

(** The same headers handed back as a dict. *)
Definition dict_callback (request : PreparedRequest) : CallbackReturn :=
  ReturnsTuple 201 (HDict [("content-type", "application/json")]) (BodyText "{}").




(** A strict mock whose url is written with an upper-case host. *)
Definition upper_host_mock : result BaseResponse :=
  Response__init__ "GET" (UStr "http://X/?a=1") (BodyText "")
    None 200 None false UNSET (Given true) [].

(** The body and a header of the response a dispatch returned, if it
    returned one. *)
Definition delivered_body (out : result Obj) : option Stream :=
  match out with
  | Ok (ObjResp r) => Some (raw_body (resp_raw r))
  | _ => None
  end.


End MoreExamples.

(** * Properties *)

(** ** The order of [sorted] *)

Global Instance tuple_le_po : PartialOrder tuple_le.
Proof.
  split; [split|].
  - intros [k v]. unfold tuple_le; simpl. by rewrite decide_True.
  - intros [k1 v1] [k2 v2] [k3 v3]. unfold tuple_le; simpl.
    intros H12 H23.
    destruct (decide (k1 = k2)) as [E12|N12], (decide (k2 = k3)) as [E23|N23],
      (decide (k1 = k3)) as [E13|N13]; subst; try done.
    + by etrans.
    + destruct N12. by apply (anti_symm String.le).
    + by etrans.
  - intros [k1 v1] [k2 v2]. unfold tuple_le; simpl.
    intros H12 H21.
    destruct (decide (k1 = k2)) as [E12|N12], (decide (k2 = k1)) as [E21|N21];
      subst; try done.
    + f_equal. by apply (anti_symm String.le).
    + destruct N12. by apply (anti_symm String.le).
Qed.

Global Instance tuple_le_total : Total tuple_le.
Proof.
  intros [k1 v1] [k2 v2]. unfold tuple_le; simpl.
  repeat case_decide; subst; try done; apply (total String.le).
Qed.

(** Two lists sort to the same list exactly when one is a rearrangement of
    the other. *)
Lemma sorted_eq_iff l1 l2 : sorted l1 = sorted l2 <-> l1 ≡ₚ l2.
Proof.
  unfold sorted. split.
  - intros Heq.
    rewrite <- (merge_sort_Permutation tuple_le l1), Heq.
    apply merge_sort_Permutation.
  - intros Hp. apply (Sorted_unique tuple_le).
    + apply Sorted_merge_sort, _.
    + apply Sorted_merge_sort, _.
    + by rewrite !merge_sort_Permutation.
Qed.

(** ** Matching *)

Section MatcherFacts.
Context `{!Lib}.

Lemma _url_matches_strict_iff url other :
  _url_matches_strict url other = true <->
  (scheme (urlparse url), netloc (urlparse url), path (urlparse url))
  = (scheme (urlparse other), netloc (urlparse other), path (urlparse other))
  /\ parse_qsl (query (urlparse url)) ≡ₚ parse_qsl (query (urlparse other)).
Proof.
  unfold _url_matches_strict.
  case_bool_decide as Ht; simpl.
  - rewrite bool_decide_eq_true, sorted_eq_iff. tauto.
  - split; [done|]. intros [Ht' _]. done.
Qed.

Lemma _url_matches_literal_strict url other :
  _url_matches (UStr url) other true = _url_matches_strict (normalized url) other.
Proof. reflexivity. Qed.

Lemma matches_true_iff self request :
  (matches self request).1 = true <->
  req_method request = method self
  /\ _url_matches (url self) (req_url request) (match_querystring self) = true
  /\ _body_matches (match_ self) (req_body request) = true.
Proof.
  unfold matches.
  destruct (String.eqb_spec (req_method request) (method self)) as [Hm|Hm];
    simpl; [|by split; [|intros [? _]]].
  destruct (_url_matches _ _ _); simpl; [|by split; [|intros (_ & ? & _)]].
  destruct (_body_matches _ _); simpl; [done|by split; [|intros (_ & _ & ?)]].
Qed.

(** The reason is empty exactly for a match. *)
Lemma matches_true_reason self request :
  (matches self request).1 = true -> matches self request = (true, "").
Proof.
  unfold matches.
  repeat (match goal with |- context [if ?b then _ else _] => destruct b end;
          simpl; try done).
Qed.

(** Matching does not read [call_count]. *)
Lemma matches_call_count_irrelevant o n request :
  matches {| method := method o; url := url o;
             match_querystring := match_querystring o;
             match_ := match_ o; call_count := n;
             content_type := content_type o; headers := headers o;
             stream := stream o; variant := variant o |} request
  = matches o request.
Proof. reflexivity. Qed.

End MatcherFacts.

(** C6 — strict query-string matching.  For a mock with a literal url and
    [match_querystring] true, the url stage of [matches] succeeds exactly
    when scheme, host and path of the request url equal those of the mock's
    url as it is normalised for the comparison (characters above 128 quoted,
    then written anew by urllib3's [parse_url]), not those of the url as the
    mock was given it, and the query parameters of the request are a
    rearrangement of those of the normalised url; the whole of [matches]
    adds the method and the body matchers to that.  The mock for
    [http://x/?a=1&b=2] matches a request to [http://x/?b=2&a=1] and does
    not match one to [http://x/?a=1]. *)
Theorem strict_querystring_matching :
  (forall (L : Lib) (url other : string),
      _url_matches (UStr url) other true = true <->
      (scheme (urlparse (normalized url)), netloc (urlparse (normalized url)),
       path (urlparse (normalized url)))
      = (scheme (urlparse other), netloc (urlparse other), path (urlparse other))
      /\ parse_qsl (query (urlparse (normalized url)))
         ≡ₚ parse_qsl (query (urlparse other)))
  /\ (forall (L : Lib) (m : string) (u : string) (ms : list Matcher) (n : nat)
        (ct : option string) (hs : option Headers) (st : bool) (v : Variant)
        (request : PreparedRequest),
      (matches {| method := m; url := UStr u; match_querystring := true;
                  match_ := ms; call_count := n; content_type := ct;
                  headers := hs; stream := st; variant := v |} request).1 = true
      <->
      req_method request = m
      /\ ((scheme (urlparse (normalized u)), netloc (urlparse (normalized u)),
           path (urlparse (normalized u)))
          = (scheme (urlparse (req_url request)),
             netloc (urlparse (req_url request)),
             path (urlparse (req_url request)))
          /\ parse_qsl (query (urlparse (normalized u)))
             ≡ₚ parse_qsl (query (urlparse (req_url request))))
      /\ _body_matches ms (req_body request) = true)
  /\ (exists mock, qs_mock = Ok mock
        /\ @matches ascii_lib mock (GET "http://x/?b=2&a=1") = (true, "")
        /\ @matches ascii_lib mock (GET "http://x/?a=1")
           = (false, "URL does not match")).
Proof.
  split; [|split].
  - intros L url other.
    by rewrite _url_matches_literal_strict, _url_matches_strict_iff.
  - intros L m u ms n ct hs st v request.
    rewrite matches_true_iff. cbn [method url match_querystring match_].
    by rewrite _url_matches_literal_strict, _url_matches_strict_iff.
  - eexists. split; [reflexivity|]. split; vm_compute; reflexivity.
Qed.

(** ** The scan of the registry *)

Section ScanFacts.
Context `{!Lib}.

Lemma scan_ext objects1 objects2 request l i found found_match reasons :
  (forall a, matches (objects1 a) request = matches (objects2 a) request) ->
  scan objects1 request l i found found_match reasons
  = scan objects2 request l i found found_match reasons.
Proof.
  intros Hext. revert i found found_match reasons.
  induction l as [|a l IH]; intros i found found_match reasons; simpl; [done|].
  rewrite Hext. destruct (matches (objects2 a) request) as [[] reason];
    [destruct found|]; by rewrite ?IH.
Qed.

(** A stretch of mocks that do not match only adds its reasons. *)
Lemma scan_skip objects request l1 l2 i found found_match reasons :
  Forall (fun a => ¬ matching objects request a) l1 ->
  scan objects request (l1 ++ l2) i found found_match reasons
  = scan objects request l2 (i + length l1) found found_match
         (reasons ++ reasons_of objects request l1).
Proof.
  intros Hno. revert i reasons.
  induction Hno as [|a l1 Ha _ IH]; intros i reasons; simpl.
  - by rewrite Nat.add_0_r, app_nil_r.
  - unfold matching in Ha.
    destruct (matches (objects a) request) as [[] reason] eqn:Hm; simpl in *;
      [done|].
    rewrite IH. by rewrite <- app_assoc, Nat.add_succ_r.
Qed.

Lemma scan_first objects request a l i reasons :
  matching objects request a ->
  scan objects request (a :: l) i None None reasons
  = scan objects request l (S i) (Some i) (Some a) reasons.
Proof.
  unfold matching; simpl.
  by destruct (matches (objects a) request) as [[] reason]; simpl.
Qed.

Lemma scan_second objects request a l i f found_match reasons :
  matching objects request a ->
  scan objects request (a :: l) i (Some f) found_match reasons
  = SecondMatch f reasons.
Proof.
  unfold matching; simpl.
  by destruct (matches (objects a) request) as [[] reason]; simpl.
Qed.

(** No mock matches: the scan ends with one reason per mock. *)
Lemma scan_none objects request l :
  Forall (fun a => ¬ matching objects request a) l ->
  scan objects request l 0 None None []
  = Finished None None (reasons_of objects request l).
Proof.
  intros Hno. rewrite <- (app_nil_r l) at 1.
  by rewrite scan_skip.
Qed.

(** One mock matches: the scan ends with it, and it stays where it is. *)
Lemma scan_single objects request a l1 l2 :
  Forall (fun a => ¬ matching objects request a) (l1 ++ l2) ->
  matching objects request a ->
  scan objects request (l1 ++ a :: l2) 0 None None []
  = Finished (Some (length l1)) (Some a)
             (reasons_of objects request (l1 ++ l2)).
Proof.
  intros [Hno1 Hno2]%Forall_app Ha.
  rewrite scan_skip, scan_first by done. simpl.
  rewrite <- (app_nil_r l2) at 1. rewrite scan_skip by done. simpl.
  unfold reasons_of. by rewrite fmap_app.
Qed.

(** A second match: the scan stops there and names the first. *)
Lemma scan_two objects request a b l1 l2 l3 :
  Forall (fun a => ¬ matching objects request a) (l1 ++ l2) ->
  matching objects request a ->
  matching objects request b ->
  scan objects request (l1 ++ a :: l2 ++ b :: l3) 0 None None []
  = SecondMatch (length l1) (reasons_of objects request (l1 ++ l2)).
Proof.
  intros [Hno1 Hno2]%Forall_app Ha Hb.
  rewrite scan_skip, scan_first by done. simpl.
  rewrite scan_skip, scan_second by done.
  unfold reasons_of. by rewrite fmap_app.
Qed.

(** [_find_match] in the three situations. *)
Lemma _find_match_none request self :
  Forall (fun a => ¬ matching (objects self) request a) (_matches self) ->
  _find_match request self
  = (Ok (None, reasons_of (objects self) request (_matches self)), self).
Proof.
  intros Hno. unfold _find_match, bind, gets; simpl.
  by rewrite scan_none.
Qed.

Lemma _find_match_single request self a l1 l2 :
  _matches self = l1 ++ a :: l2 ->
  Forall (fun a => ¬ matching (objects self) request a) (l1 ++ l2) ->
  matching (objects self) request a ->
  _find_match request self
  = (Ok (Some a, reasons_of (objects self) request (l1 ++ l2)), self).
Proof.
  intros Hm Hno Ha. unfold _find_match, bind, gets; simpl.
  by rewrite Hm, scan_single.
Qed.

Lemma _find_match_two request self a b l1 l2 l3 :
  _matches self = l1 ++ a :: l2 ++ b :: l3 ->
  Forall (fun a => ¬ matching (objects self) request a) (l1 ++ l2) ->
  matching (objects self) request a ->
  matching (objects self) request b ->
  _find_match request self
  = (Ok (Some a, reasons_of (objects self) request (l1 ++ l2)),
     set_matches (l1 ++ l2 ++ b :: l3) self).
Proof.
  intros Hm Hno Ha Hb. unfold _find_match, bind, gets; simpl.
  rewrite Hm, scan_two by done.
  rewrite list_lookup_middle by done.
  unfold modify, ret; simpl. by rewrite delete_middle.
Qed.

End ScanFacts.

(** ** Dispatch *)

Section DispatchFacts.
Context `{!Lib}.

(** Answering with a mock counts one call on it, logs one record and leaves
    the registry alone. *)
Lemma respond_with_state a request self :
  exists out logged,
    respond_with a request self
    = (out,
       set_calls (_calls self ++ [{| request := request; response := logged |}])
         (set_objects (<[a := count_call (objects self a)]> (objects self))
                      (next_id self) self)).
Proof.
  unfold respond_with, bind, gets; simpl.
  destruct (match get_response (objects self a) request with
            | Ok raw => build_response request raw
            | Raise e => Raise e
            end) as [r|e]; simpl; eauto.
Qed.

(** Answering with a mock, in full: the outcome is what the transport and
    the response callback make of the response the mock materialises, or
    the exception raised on the way; the call is counted on the mock and the
    pair of the request and the outcome is logged. *)
Lemma respond_with_eq a request self :
  respond_with a request self
  = let out :=
      match get_response (objects self a) request with
      | Raise e => Raise e
      | Ok raw =>
          match build_response request raw with
          | Raise e => Raise e
          | Ok r =>
              Ok (apply_callback (response_callback self)
                    (ObjResp (if negb (stream (objects self a))
                              then content r else r)))
          end
      end in
    (out,
     set_calls (_calls self
                ++ [{| request := request;
                       response := match out with
                                   | Ok o => o
                                   | Raise e => ObjExc e
                                   end |}])
       (set_objects (<[a := count_call (objects self a)]> (objects self))
                    (next_id self) self)).
Proof.
  unfold respond_with, bind, gets; simpl.
  destruct (get_response (objects self a) request) as [raw|e]; [|done].
  by destruct (build_response request raw).
Qed.

Lemma respond_with_matches a request self :
  _matches (respond_with a request self).2 = _matches self.
Proof. by destruct (respond_with_state a request self) as (? & ? & ->). Qed.

Lemma respond_with_calls a request self :
  exists logged,
    _calls (respond_with a request self).2
    = _calls self ++ [{| request := request; response := logged |}].
Proof.
  destruct (respond_with_state a request self) as (? & logged & ->).
  by exists logged.
Qed.

Lemma respond_with_objects a request self :
  objects (respond_with a request self).2
  = <[a := count_call (objects self a)]> (objects self).
Proof. by destruct (respond_with_state a request self) as (? & ? & ->). Qed.

Lemma respond_with_call_count a request self :
  call_count (objects (respond_with a request self).2 a)
  = S (call_count (objects self a)).
Proof. by rewrite respond_with_objects, fn_lookup_insert. Qed.

(** Counting a call changes no match. *)
Lemma respond_with_matching a request self request' b :
  matches (objects (respond_with a request self).2 b) request'
  = matches (objects self b) request'.
Proof.
  rewrite respond_with_objects.
  destruct (decide (a = b)) as [->|Hne].
  - by rewrite fn_lookup_insert.
  - by rewrite fn_lookup_insert_ne.
Qed.

Lemma _on_request_single request self a l1 l2 :
  _matches self = l1 ++ a :: l2 ->
  Forall (fun b => ¬ matching (objects self) request b) (l1 ++ l2) ->
  matching (objects self) request a ->
  _on_request request self = respond_with a (with_params request) self.
Proof.
  intros Hm Hno Ha. unfold _on_request, bind.
  by rewrite (_find_match_single request self a l1 l2).
Qed.

Lemma _on_request_two request self a b l1 l2 l3 :
  _matches self = l1 ++ a :: l2 ++ b :: l3 ->
  Forall (fun b => ¬ matching (objects self) request b) (l1 ++ l2) ->
  matching (objects self) request a ->
  matching (objects self) request b ->
  _on_request request self
  = respond_with a (with_params request) (set_matches (l1 ++ l2 ++ b :: l3) self).
Proof.
  intros Hm Hno Ha Hb. unfold _on_request, bind.
  by rewrite (_find_match_two request self a b l1 l2 l3).
Qed.

Lemma _on_request_none request self :
  Forall (fun b => ¬ matching (objects self) request b) (_matches self) ->
  _on_request request self
  = unmatched (reasons_of (objects self) request (_matches self))
              (with_params request) self.
Proof.
  intros Hno. unfold _on_request, bind.
  by rewrite _find_match_none.
Qed.

End DispatchFacts.

(** ** One-shot consumption and reuse of a single match *)

Section Consumption.
Context `{!Lib}.

Lemma first_matching (P : addr -> Prop) `{!forall a, Decision (P a)} (l : list addr) :
  Exists P l ->
  exists l1 b l2, l = l1 ++ b :: l2 /\ Forall (fun a => ¬ P a) l1 /\ P b.
Proof.
  induction l as [|a l IH]; intros Hex; [by inversion Hex|].
  destruct (decide (P a)) as [Ha|Ha].
  - by exists [], a, l.
  - inversion Hex as [|?? Hex']; subst; [done|].
    destruct (IH Hex') as (l1 & b & l2 & -> & Hno & Hb).
    exists (a :: l1), b, l2. by repeat split; [constructor|].
Qed.

(** C1 — one-shot consumption.  In a registry whose first two mocks matching
    a request are [S1] and then [S2], the first dispatch of the request
    deletes [S1] from the registry (everything else, [S2] included, stays in
    place) and answers with [S1]: its outcome is what the transport and the
    response callback make of the response that [S1] materialises (or the
    exception raised on the way), the call is counted on [S1] and on no other
    mock, and the pair of the request and that outcome is appended to the
    call log.  A second dispatch of the same request answers with [S2] in
    the same way; [S2] is deleted in turn only if a further mock matches. *)
Theorem one_shot_consumption (self : RequestsMock) (request : PreparedRequest)
    (S1 S2 : addr) (l1 l2 l3 : list addr) :
  _matches self = l1 ++ S1 :: l2 ++ S2 :: l3 ->
  Forall (fun a => ¬ matching (objects self) request a) (l1 ++ l2) ->
  matching (objects self) request S1 ->
  matching (objects self) request S2 ->
  let request' := with_params request in
  let answer (a : addr) : result Obj :=
    match get_response (objects self a) request' with
    | Raise e => Raise e
    | Ok raw =>
        match build_response request' raw with
        | Raise e => Raise e
        | Ok r =>
            Ok (apply_callback (response_callback self)
                  (ObjResp (if negb (stream (objects self a))
                            then content r else r)))
        end
    end in
  let record (a : addr) : Call :=
    {| request := request';
       response := match answer a with Ok o => o | Raise e => ObjExc e end |} in
  let first := _on_request request self in
  let second := _on_request request first.2 in
  first.1 = answer S1
  /\ _matches first.2 = l1 ++ l2 ++ S2 :: l3
  /\ _calls first.2 = _calls self ++ [record S1]
  /\ objects first.2 = <[S1 := count_call (objects self S1)]> (objects self)
  /\ second.1 = answer S2
  /\ _matches second.2
     = (if decide (Exists (matching (objects self) request) l3)
        then l1 ++ l2 ++ l3 else l1 ++ l2 ++ S2 :: l3)
  /\ _calls second.2 = _calls self ++ [record S1; record S2]
  /\ objects second.2
     = <[S2 := count_call (objects first.2 S2)]> (objects first.2)
  /\ first = respond_with S1 request'
               (set_matches (l1 ++ l2 ++ S2 :: l3) self)
  /\ second = respond_with S2 request'
                (if decide (Exists (matching (objects self) request) l3)
                 then set_matches (l1 ++ l2 ++ l3) first.2
                 else first.2).
Proof.
  intros Hm Hno H1 H2 request' answer record first second.
  assert (Hfirst : first = respond_with S1 request'
                             (set_matches (l1 ++ l2 ++ S2 :: l3) self))
    by by apply _on_request_two.
  assert (Hreg : _matches first.2 = (l1 ++ l2) ++ S2 :: l3).
  { by rewrite Hfirst, respond_with_matches, <- app_assoc. }
  assert (Hsame : forall b, matching (objects first.2) request b
                            <-> matching (objects self) request b).
  { intros b. unfold matching. by rewrite Hfirst, respond_with_matching. }
  assert (Hno' : Forall (fun a => ¬ matching (objects first.2) request a)
                        (l1 ++ l2)).
  { eapply Forall_impl; [exact Hno|]. intros b Hb. by rewrite Hsame. }
  assert (Hsecond : second = respond_with S2 request'
            (if decide (Exists (matching (objects self) request) l3)
             then set_matches (l1 ++ l2 ++ l3) first.2
             else first.2)).
  { unfold second.
    destruct (decide (Exists (matching (objects self) request) l3)) as [Hex|Hex].
    - destruct (first_matching _ l3 Hex) as (l3a & b & l3b & -> & Hno3 & Hb).
      rewrite (_on_request_two request first.2 S2 b (l1 ++ l2) l3a l3b).
      + by rewrite <- !app_assoc.
      + done.
      + apply Forall_app. split; [done|].
        eapply Forall_impl; [exact Hno3|]. intros c Hc. by rewrite Hsame.
      + by apply Hsame.
      + by apply Hsame.
    - apply not_Exists_Forall in Hex; [|apply _].
      apply (_on_request_single request first.2 S2 (l1 ++ l2) l3); [done| |].
      + apply Forall_app. split; [done|].
        eapply Forall_impl; [exact Hex|]. intros c Hc. simpl in Hc.
        by rewrite Hsame.
      + by apply Hsame. }
  assert (Hfirst' : first
            = (answer S1,
               set_calls (_calls self ++ [record S1])
                 (set_objects (<[S1 := count_call (objects self S1)]> (objects self))
                    (next_id self)
                    (set_matches (l1 ++ l2 ++ S2 :: l3) self)))).
  { by rewrite Hfirst, respond_with_eq. }
  assert (Hans : forall a,
            match get_response (objects first.2 a) request' with
            | Raise e => Raise e
            | Ok raw =>
                match build_response request' raw with
                | Raise e => Raise e
                | Ok r =>
                    Ok (apply_callback (response_callback first.2)
                          (ObjResp (if negb (stream (objects first.2 a))
                                    then content r else r)))
                end
            end = answer a).
  { intros a. rewrite Hfirst'. cbn [snd objects set_calls set_objects
                                      response_callback set_matches].
    destruct (decide (S1 = a)) as [->|Hne].
    - by rewrite fn_lookup_insert.
    - by rewrite fn_lookup_insert_ne. }
  assert (Hsecond' : second
            = (answer S2,
               set_calls (_calls first.2 ++ [record S2])
                 (set_objects (<[S2 := count_call (objects first.2 S2)]>
                                 (objects first.2))
                    (next_id first.2)
                    (if decide (Exists (matching (objects self) request) l3)
                     then set_matches (l1 ++ l2 ++ l3) first.2
                     else first.2)))).
  { rewrite Hsecond, respond_with_eq.
    destruct (decide (Exists (matching (objects self) request) l3));
      cbn zeta; cbn [objects response_callback _calls next_id set_matches];
      by rewrite (Hans S2). }
  split; [by rewrite Hfirst'|]. split; [by rewrite Hreg, <- app_assoc|].
  split; [by rewrite Hfirst'|]. split; [by rewrite Hfirst'|].
  split; [by rewrite Hsecond'|]. split.
  { rewrite Hsecond'.
    destruct (decide _); cbn [snd _matches set_calls set_objects set_matches];
      [done|by rewrite Hreg, <- app_assoc]. }
  split.
  { rewrite Hsecond'. cbn [snd _calls set_calls].
    rewrite Hfirst'. cbn [snd _calls set_calls]. by rewrite <- app_assoc. }
  split; [by rewrite Hsecond'|]. done.
Qed.

(** C2 — a single match is reused.  In a registry with exactly one mock
    matching a request, any number [n] of dispatches of the request leaves the
    registry as it is, has counted [n] calls on that mock and logged [n]
    records, and the next dispatch answers with that mock again. *)
Theorem single_match_idempotence (self : RequestsMock)
    (request : PreparedRequest) (a : addr) (l1 l2 : list addr) (n : nat) :
  _matches self = l1 ++ a :: l2 ->
  Forall (fun b => ¬ matching (objects self) request b) (l1 ++ l2) ->
  matching (objects self) request a ->
  let self' := dispatches n request self in
  _matches self' = _matches self
  /\ call_count (objects self' a) = call_count (objects self a) + n
  /\ length (_calls self') = length (_calls self) + n
  /\ _on_request request self' = respond_with a (with_params request) self'.
Proof.
  intros Hm Hno Ha. simpl.
  assert (Hinv : _matches (dispatches n request self) = _matches self
    /\ call_count (objects (dispatches n request self) a)
       = call_count (objects self a) + n
    /\ length (_calls (dispatches n request self)) = length (_calls self) + n
    /\ forall b, matches (objects (dispatches n request self) b) request
                 = matches (objects self b) request).
  { induction n as [|n (IHm & IHc & IHl & IHo)]; [by rewrite !Nat.add_0_r|].
    unfold dispatches in *. rewrite Nat.iter_succ.
    set (cur := Nat.iter n _ self) in *.
    rewrite (_on_request_single request cur a l1 l2).
    - rewrite respond_with_matches, respond_with_call_count, IHc.
      destruct (respond_with_calls a (with_params request) cur) as [c ->].
      rewrite length_app, IHl; simpl.
      repeat split; [done|lia|lia|].
      intros b. by rewrite respond_with_matching.
    - by rewrite IHm.
    - eapply Forall_impl; [exact Hno|]. intros b Hb. unfold matching.
      by rewrite IHo.
    - unfold matching. by rewrite IHo. }
  destruct Hinv as (IHm & IHc & IHl & IHo).
  repeat split; [done..|].
  apply (_on_request_single request _ a l1 l2).
  - by rewrite IHm.
  - eapply Forall_impl; [exact Hno|]. intros b Hb. unfold matching.
    by rewrite IHo.
  - unfold matching. by rewrite IHo.
Qed.

End Consumption.

(** ** The unmatched request *)

Lemma append_assoc (s1 s2 s3 : string) : (s1 +:+ s2) +:+ s3 = s1 +:+ s2 +:+ s3.
Proof.
  induction s1 as [|c s1 IH]; [done|].
  change (String c ((s1 +:+ s2) +:+ s3) = String c (s1 +:+ s2 +:+ s3)).
  by rewrite IH.
Qed.

Lemma append_nil_r (s : string) : s +:+ "" = s.
Proof.
  induction s as [|c s IH]; [done|].
  change (String c (s +:+ "") = String c s). by rewrite IH.
Qed.

Lemma join_empty_cons (x : string) (l : list string) :
  join "" (x :: l) = x +:+ join "" l.
Proof. destruct l; simpl; [by rewrite append_nil_r|done]. Qed.

Lemma occurs_in_join (x : string) (l : list string) :
  x ∈ l -> occurs_in x (join "" l).
Proof.
  induction 1 as [x l|x y l _ (pre & post & IH)]; rewrite join_empty_cons.
  - by exists "", (join "" l).
  - exists (y +:+ pre), post. by rewrite IH, append_assoc.
Qed.

Lemma occurs_in_append_r (sub s1 s2 : string) :
  occurs_in sub s2 -> occurs_in sub (s1 +:+ s2).
Proof.
  intros (pre & post & ->). exists (s1 +:+ pre), post. by rewrite append_assoc.
Qed.

Lemma occurs_in_append_l (sub s1 s2 : string) :
  occurs_in sub s1 -> occurs_in sub (s1 +:+ s2).
Proof.
  intros (pre & post & ->). exists pre, (post +:+ s2).
  by rewrite !append_assoc.
Qed.

(** With one reason per mock the list of mocks is written out in full. *)
Lemma available_matches_aligned ms pre rs error_msg :
  length rs = length ms ->
  available_matches ms (length pre) (pre ++ rs) error_msg
  = Ok (error_msg +:+ listing ms rs).
Proof.
  revert pre rs error_msg.
  induction ms as [|m ms IH]; intros pre [|r rs] error_msg Hlen;
    simpl in Hlen; try discriminate.
  - unfold listing; simpl. by rewrite append_nil_r.
  - cbn [available_matches]. rewrite list_lookup_middle by done.
    replace (pre ++ r :: rs) with ((pre ++ [r]) ++ rs) by by rewrite <- app_assoc.
    replace (S (length pre)) with (length (pre ++ [r]))
      by (rewrite length_app; simpl; lia).
    rewrite IH by lia. unfold listing. cbn [zip_with].
    by rewrite join_empty_cons, append_assoc.
Qed.

Section Unmatched.
Context `{!Lib}.

(** Every registry is in one of three situations for a request: no mock
    matches it, exactly one does, or there is a first and a second match. *)
Lemma registry_cases (objects : addr -> BaseResponse)
    (request : PreparedRequest) (l : list addr) :
  Forall (fun a => ¬ matching objects request a) l
  \/ (exists l1 a l2,
        l = l1 ++ a :: l2
        /\ Forall (fun a => ¬ matching objects request a) (l1 ++ l2)
        /\ matching objects request a)
  \/ (exists l1 a l2 b l3,
        l = l1 ++ a :: l2 ++ b :: l3
        /\ Forall (fun a => ¬ matching objects request a) (l1 ++ l2)
        /\ matching objects request a /\ matching objects request b).
Proof.
  destruct (decide (Exists (matching objects request) l)) as [Hex|Hex].
  - right.
    destruct (first_matching _ l Hex) as (l1 & a & l2 & -> & Hno1 & Ha).
    destruct (decide (Exists (matching objects request) l2)) as [Hex2|Hex2].
    + right.
      destruct (first_matching _ l2 Hex2) as (l2a & b & l3 & -> & Hno2 & Hb).
      exists l1, a, l2a, b, l3. by rewrite Forall_app.
    + left. apply not_Exists_Forall in Hex2; [|apply _].
      exists l1, a, l2. by rewrite Forall_app.
  - left. by apply not_Exists_Forall in Hex; [|apply _].
Qed.

Lemma passthru_with_params prefixes request :
  passthru prefixes (with_params request) = passthru prefixes request.
Proof. reflexivity. Qed.

Lemma unmatched_passthru reasons request self :
  passthru (passthru_prefixes self) request = true ->
  unmatched reasons request self = (_real_send request, self).
Proof. intros Hp. unfold unmatched, bind, gets; simpl. by rewrite Hp. Qed.

Lemma unmatched_refused reasons request self :
  passthru (passthru_prefixes self) request = false ->
  length reasons = length (_matches self) ->
  let error :=
    ConnectionError (refused_head request +:+ listing (registered self) reasons)
                    (Some request) in
  unmatched reasons request self
  = raise_obj (apply_callback (response_callback self) (ObjExc error))
      (set_calls (_calls self ++ [{| request := request;
                                     response := ObjExc error |}]) self).
Proof.
  intros Hp Hlen. unfold unmatched, bind, gets, lift; simpl. rewrite Hp.
  rewrite (available_matches_aligned (registered self) [] reasons); [done|].
  unfold registered. by rewrite length_fmap.
Qed.

Lemma _on_request_refused (self : RequestsMock) (request : PreparedRequest) :
  Forall (fun a => ¬ matching (objects self) request a) (_matches self) ->
  passthru (passthru_prefixes self) request = false ->
  let request' := with_params request in
  let error :=
    ConnectionError
      (refused_head request'
       +:+ listing (registered self)
             (reasons_of (objects self) request (_matches self)))
      (Some request') in
  _on_request request self
  = raise_obj (apply_callback (response_callback self) (ObjExc error))
      (set_calls (_calls self ++ [{| request := request';
                                     response := ObjExc error |}]) self).
Proof.
  intros Hno Hp. simpl. rewrite _on_request_none by done.
  apply unmatched_refused; [done|]. unfold reasons_of. by rewrite length_fmap.
Qed.

(** C5, as the code has it — the unmatched request.  When no registered mock
    matches a request and no passthrough prefix applies, the dispatcher
    builds a connection error whose message holds the method and url of the
    request and, for every registered mock, a line with that mock's own
    failure reason; it appends the pair of the request and this error to the
    call log; then it raises the error, or, in a session with a response
    callback, what the callback returns for it. *)
Theorem no_match_dispatch (self : RequestsMock) (request : PreparedRequest) :
  Forall (fun a => ¬ matching (objects self) request a) (_matches self) ->
  passthru (passthru_prefixes self) request = false ->
  let request' := with_params request in
  let error_msg :=
    refused_head request'
    +:+ listing (registered self) (reasons_of (objects self) request (_matches self)) in
  let error := ConnectionError error_msg (Some request') in
  _on_request request self
  = raise_obj (apply_callback (response_callback self) (ObjExc error))
      (set_calls (_calls self ++ [{| request := request';
                                     response := ObjExc error |}]) self)
  /\ (response_callback self = None ->
      (_on_request request self).1 = Raise error)
  /\ occurs_in (req_method request +:+ " " +:+ req_url request) error_msg
  /\ (forall i a, _matches self !! i = Some a ->
        occurs_in (match_line (objects self a) (matches (objects self a) request).2)
                  error_msg).
Proof.
  intros Hno Hp request' error_msg error.
  assert (Hrun : _on_request request self
    = raise_obj (apply_callback (response_callback self) (ObjExc error))
        (set_calls (_calls self ++ [{| request := request';
                                       response := ObjExc error |}]) self)).
  { by apply _on_request_refused. }
  split; [done|]. split; [|split].
  - intros Hcb. rewrite Hrun, Hcb. reflexivity.
  - apply occurs_in_append_l. unfold refused_head.
    exists ("Connection refused by Responses - the call doesn't "
            +:+ "match any registered mock." +:+ nl +:+ nl
            +:+ "Request: " +:+ nl +:+ "- "),
           (nl +:+ nl +:+ "Available matches:" +:+ nl).
    by rewrite !append_assoc.
  - intros i a Hi. apply occurs_in_append_r, occurs_in_join.
    apply list_elem_of_lookup. exists i.
    unfold registered, reasons_of.
    rewrite lookup_zip_with, !list_lookup_fmap, Hi. reflexivity.
Qed.


End Unmatched.

(** ** The registry operations *)

Section Registry.
Context `{!Lib}.

Lemma list_contains_false eqx l :
  list_contains eqx l = false -> filter (fun a => eqx a = false) l = l.
Proof.
  unfold list_contains. induction l as [|a l IH]; simpl; [done|].
  intros [Ha Hl]%orb_false_iff.
  rewrite filter_cons_True by done. by rewrite IH.
Qed.

Lemma list_remove_filter eqx l :
  list_contains eqx l = true ->
  exists l', list_remove eqx l = Ok l'
             /\ filter (fun a => eqx a = false) l'
                = filter (fun a => eqx a = false) l.
Proof.
  unfold list_contains. induction l as [|a l IH]; simpl; [done|].
  destruct (eqx a) eqn:Ha; simpl.
  - intros _. exists l. split; [done|].
    rewrite filter_cons_False; [done|]. by rewrite Ha.
  - intros Hl. destruct (IH Hl) as (l' & -> & Hf).
    exists (a :: l'). split; [done|].
    by rewrite !filter_cons_True, Hf.
Qed.

(** The loop of [remove] ends, and keeps exactly the items not equal to the
    key. *)
Lemma remove_loop_filter eqx l :
  remove_loop eqx l = Ok (filter (fun a => eqx a = false) l).
Proof.
  funelim (remove_loop eqx l).
  - match goal with
    | Hc : list_contains eqx l = false |- _ =>
        by rewrite (list_contains_false eqx l Hc)
    end.
  - match goal with
    | Hc : list_contains eqx l = true |- _ =>
        destruct (list_remove_filter eqx l Hc) as (l2 & Hr2 & Hf)
    end.
    match goal with
    | IH : remove_loop _ _ = Ok _ |- _ => rewrite IH
    end.
    congruence.
  - match goal with
    | Hc : list_contains eqx l = true |- _ =>
        destruct (list_remove_filter eqx l Hc) as (l2 & Hr2 & Hf)
    end.
    congruence.
Qed.

Lemma BaseResponse__eq__iff r1 r2 :
  BaseResponse__eq__ r1 r2 = true
  <-> method r1 = method r2 /\ url_text (url r1) = url_text (url r2).
Proof.
  unfold BaseResponse__eq__.
  destruct (String.eqb_spec (method r1) (method r2)) as [Hm|Hm]; simpl.
  - rewrite String.eqb_eq. tauto.
  - split; [done|]. by intros [? _].
Qed.

(** C7 — [remove] deletes all equal entries.  [remove] returns normally and
    leaves in the registry, in their order, exactly the mocks that are not
    equal to the key, the key being the mock given or
    [BaseResponse(method, url)]; two mocks are equal exactly when their
    methods are equal and their urls are equal as texts, the text of a
    compiled pattern being its source. *)
Theorem remove_deletes_all_equal :
  (forall (self : RequestsMock) (method_or_response : MethodOrResponse)
          (url : Url),
      let key :=
        match method_or_response with
        | IsResponse a => objects self a
        | IsMethod m => BaseResponse__init__ m url UNSET []
        end in
      remove method_or_response url self
      = (Ok tt,
         set_matches
           (filter (fun a => BaseResponse__eq__ (objects self a) key = false)
                   (_matches self))
           self))
  /\ (forall r1 r2 : BaseResponse,
        BaseResponse__eq__ r1 r2 = true
        <-> method r1 = method r2 /\ url_text (url r1) = url_text (url r2)).
Proof.
  split; [|apply BaseResponse__eq__iff].
  intros self [a|m] url; simpl; unfold remove, bind, gets, ret, lift, modify;
    simpl; by rewrite remove_loop_filter.
Qed.

Lemma list_index_Some eqx l i old :
  l !! i = Some old ->
  eqx old = true ->
  (forall j b, l !! j = Some b -> j < i -> eqx b ≠ true) ->
  list_index eqx l = Some i.
Proof.
  intros Hi Heq Hfirst. unfold list_index.
  assert (Hf : list_find (fun a => Is_true (eqx a)) l = Some (i, old)).
  { apply list_find_Some. repeat split; [done|by apply Is_true_true|].
    intros j b Hj Hlt Hb. by apply (Hfirst j b Hj Hlt), Is_true_true. }
  by rewrite Hf.
Qed.

Lemma list_index_None eqx l :
  Forall (fun a => eqx a ≠ true) l -> list_index eqx l = None.
Proof.
  intros Hno. unfold list_index.
  assert (Hf : list_find (fun a => Is_true (eqx a)) l = None).
  { apply list_find_None. eapply Forall_impl; [exact Hno|].
    intros a Ha Ht. by apply Ha, Is_true_true. }
  by rewrite Hf.
Qed.

(** Storing an object under an identity the registry does not use changes
    no registered mock. *)
Lemma registered_fresh (o : BaseResponse) (objects : addr -> BaseResponse)
    (n : addr) (l : list addr) :
  n ∉ l -> <[n := o]> objects <$> l = objects <$> l.
Proof.
  intros Hn. apply list_fmap_ext. intros i a Hi.
  rewrite fn_lookup_insert_ne; [done|].
  intros ->. apply Hn. by apply list_elem_of_lookup_2 in Hi.
Qed.

(** C8 — [replace] and [upsert].  Let [response] be the mock that [replace]
    is to install.  If the registry has an entry equal to it, the first such
    entry, at index [i], is overwritten by [response] and every other entry
    stays as and where it is, and [upsert] does the same as [replace]; if no
    entry is equal to it, [replace] raises a [ValueError] and leaves the
    session as it was, and [upsert] does the same as [add]. *)
Theorem replace_semantics (self : RequestsMock)
    (method_or_response : MethodOrResponse) (url : Url) (body : Body)
    (args : option Headers) (kwargs : Kwargs) (response : BaseResponse) :
  replacement method_or_response url body kwargs self = Ok response ->
  next_id self ∉ _matches self ->
  let equal := fun a => BaseResponse__eq__ (objects self a) response in
  (forall i old,
      _matches self !! i = Some old ->
      equal old = true ->
      (forall j b, _matches self !! j = Some b -> j < i -> equal b ≠ true) ->
      exists self',
        replace method_or_response url body args kwargs self = (Ok tt, self')
        /\ registered self' = <[i := response]> (registered self)
        /\ _calls self' = _calls self
        /\ upsert method_or_response url body args kwargs self = (Ok tt, self'))
  /\ (Forall (fun a => equal a ≠ true) (_matches self) ->
      (exists msg,
          replace method_or_response url body args kwargs self
          = (Raise (ValueError msg), self))
      /\ upsert method_or_response url body args kwargs self
         = add method_or_response url body args kwargs self).
Proof.
  intros Hresp Hfresh equal. split.
  - intros i old Hi Heq Hfirst.
    pose proof (list_index_Some equal (_matches self) i old Hi Heq Hfirst) as Hidx.
    unfold upsert, try_except_ValueError, replace, bind, gets, lift; simpl.
    rewrite Hresp; simpl. fold equal. rewrite Hidx.
    destruct method_or_response as [a|m]; simpl in *.
    + eexists. split; [reflexivity|]. split; [|done].
      unfold registered; simpl. rewrite list_fmap_insert. congruence.
    + eexists. split; [reflexivity|]. split; [|done].
      unfold registered; simpl.
      rewrite list_fmap_insert, fn_lookup_insert.
      by rewrite registered_fresh.
  - intros Hno.
    pose proof (list_index_None equal (_matches self) Hno) as Hidx.
    unfold upsert, try_except_ValueError, replace, bind, gets, lift; simpl.
    rewrite Hresp; simpl. fold equal. rewrite Hidx. simpl.
    split; [by eexists|done].
Qed.

End Registry.

(** ** Query parameters of the request *)

Section Params.
Context `{!Lib}.

Lemma _parse_request_params_runs url :
  _parse_request_params url
  = foldl (fun params g => <[g.1 := collapse g.2]> params) ∅
          (groupby fst (parse_qsl (query (urlparse url)))).
Proof.
  unfold _parse_request_params.
  generalize (∅ : gmap string ParamValue).
  induction (groupby fst (parse_qsl (query (urlparse url))))
    as [|[key val] runs IH]; intros params; simpl; [done|].
  rewrite IH. unfold collapse; simpl.
  by destruct (map snd val) as [|v [|]].
Qed.

(** What [params] holds for a key: the collapsed values of the last run of
    pairs with that key. *)
Lemma _parse_request_params_lookup url k :
  _parse_request_params url !! k
  = collapse <$> (snd <$> last (filter (fun g => g.1 = k)
                     (groupby fst (parse_qsl (query (urlparse url)))))).
Proof.
  rewrite _parse_request_params_runs.
  generalize (groupby fst (parse_qsl (query (urlparse url)))).
  intros runs. induction runs as [|[key val] runs IH] using rev_ind.
  - simpl. by rewrite lookup_empty.
  - rewrite foldl_app, filter_app; simpl.
    destruct (decide (key = k)) as [->|Hne].
    + rewrite lookup_insert_eq.
      rewrite filter_cons_True, filter_nil by done.
      by rewrite last_snoc.
    + rewrite lookup_insert_ne by done.
      rewrite filter_cons_False, filter_nil by done.
      by rewrite app_nil_r.
Qed.

(** The runs of [groupby] put together give the list back, and every item
    of a run has the key of the run. *)
Lemma groupby_concat {A K : Type} `{EqDecision K} (key : A -> K) (l : list A) :
  concat (snd <$> groupby key l) = l.
Proof.
  induction l as [|x l IH]; simpl; [done|].
  destruct (groupby key l) as [|[k g] gs]; simpl in *.
  - by rewrite <- IH.
  - destruct (decide (key x = k)); simpl; by rewrite <- IH.
Qed.

Lemma groupby_keys {A K : Type} `{EqDecision K} (key : A -> K) (l : list A) :
  Forall (fun g => Forall (fun x => key x = g.1) g.2) (groupby key l).
Proof.
  induction l as [|x l IH]; simpl; [constructor|].
  destruct (groupby key l) as [|[k g] gs]; simpl in *.
  - by repeat constructor.
  - inversion IH as [|?? Hg Hgs]; subst; simpl in *.
    destruct (decide (key x = k)) as [Hk|Hk]; simpl.
    + constructor; [|done]. by constructor.
    + constructor; [by repeat constructor|]. by constructor.
Qed.

Lemma filter_same_key (k : string) (g : list (string * string)) (key : string) :
  Forall (fun kv : string * string => kv.1 = key) g ->
  filter (fun kv : string * string => kv.1 = k) g
  = if decide (key = k) then g else [].
Proof.
  induction 1 as [|kv g Hkv _ IHg]; [by destruct (decide _)|].
  destruct (decide (key = k)) as [Hk|Hk].
  - rewrite filter_cons_True by congruence. by rewrite IHg.
  - rewrite filter_cons_False by congruence. by rewrite IHg.
Qed.

Lemma values_of_runs (k : string) (runs : list (string * list (string * string))) :
  Forall (fun g => Forall (fun kv : string * string => kv.1 = g.1) g.2) runs ->
  values_of k (concat (snd <$> runs))
  = concat ((fun g : string * list (string * string) => snd <$> g.2)
              <$> filter (fun g => g.1 = k) runs).
Proof.
  unfold values_of.
  induction 1 as [|[key g] runs Hg _ IH]; [done|].
  rewrite fmap_cons. cbn [concat snd].
  rewrite filter_app, fmap_app, IH. cbn [fst snd] in Hg.
  rewrite (filter_same_key k g key Hg).
  destruct (decide (key = k)) as [Hk|Hk].
  - by rewrite (filter_cons_True _ (key, g)).
  - by rewrite (filter_cons_False _ (key, g)).
Qed.

(** X25 — a key whose pairs lie in one run.  A key all of whose pairs are
    next to each other in the query is mapped to its value if it has one
    value, and to the list of all its values, in order, otherwise. *)
Lemma _parse_request_params_one_run url k g :
  filter (fun g => g.1 = k) (groupby fst (parse_qsl (query (urlparse url))))
  = [g] ->
  _parse_request_params url !! k
  = Some (match values_of k (parse_qsl (query (urlparse url))) with
          | [v] => Single v
          | values => Multi values
          end).
Proof.
  intros Hone. rewrite _parse_request_params_lookup, Hone.
  pose proof (values_of_runs k _
                (groupby_keys fst (parse_qsl (query (urlparse url))))) as Hv.
  rewrite groupby_concat, Hone in Hv. rewrite Hv. simpl.
  by rewrite app_nil_r.
Qed.

End Params.

(** C4 — the params of a query whose repeated key is not in one run.  For the
    request path [/?a=1&b=2&a=3] the key [a] occurs twice, with the values
    [1] and [3] in this order, and [_parse_request_params] maps it to the
    single value [3]: [groupby] is applied to the pairs as they come, so the
    second run of [a] overwrites the first. *)
Theorem repeated_key_apart_keeps_last_run :
  values_of "a" (@parse_qsl ascii_lib (query (@urlparse ascii_lib "/?a=1&b=2&a=3")))
  = ["1"; "3"]
  /\ @_parse_request_params ascii_lib "/?a=1&b=2&a=3" !! "a" = Some (Single "3")
  /\ @_parse_request_params ascii_lib "/?a=1&b=2&a=3" !! "b" = Some (Single "2")
  /\ @_parse_request_params ascii_lib "/?a=1&a=3&b=2" !! "a"
     = Some (Multi ["1"; "3"]).
Proof.
  repeat split; try reflexivity;
    rewrite _parse_request_params_lookup; reflexivity.
Qed.

(** ** Teardown *)

Section Teardown.
Context `{!Lib}.

(** X23 — leaving the scope on an exception of its body.  In a started
    session [__exit__] then makes no assertion, whatever mocks were never
    called: it removes the patch, clears the registry and the call log and
    returns [False], so that the exception of the body goes on. *)
Lemma __exit___after_error (self : RequestsMock) (e : Exception) (b : bool) :
  _patcher self = Some b ->
  __exit__ (Some e) self = (Ok false, torn_down self).
Proof.
  intros Hp. unfold __exit__, stop, bind, gets; simpl. rewrite Hp; simpl.
  by destruct (assert_all_requests_are_fired self).
Qed.

(** X24 — leaving the scope normally with nothing left to assert.  In a
    started session that does not assert that all requests are fired, or
    whose registered mocks all have a call counted, [__exit__] removes the
    patch, clears the registry and the call log and returns [True]. *)
Lemma __exit___clean (self : RequestsMock) (b : bool) :
  _patcher self = Some b ->
  assert_all_requests_are_fired self = false
  \/ Forall (fun m => call_count m ≠ 0) (registered self) ->
  __exit__ None self = (Ok true, torn_down self).
Proof.
  intros Hp Hok. unfold __exit__, stop, bind, gets; simpl. rewrite Hp; simpl.
  destruct (assert_all_requests_are_fired self) eqn:Hf; simpl; [|done].
  destruct Hok as [|Hall]; [done|].
  assert (Hnone : filter (fun m => call_count m = 0) (registered self) = []).
  { unfold registered in *; simpl in *.
    induction Hall as [|m l Hm _ IH]; [done|].
    by rewrite filter_cons_False. }
  unfold registered in *; simpl in *. by rewrite Hnone.
Qed.

(** Leaving the scope normally with a mock that was never called: [stop]
    raises, and [reset] does not run. *)
Lemma __exit___unfired (self : RequestsMock) (b : bool) :
  _patcher self = Some b ->
  assert_all_requests_are_fired self = true ->
  Exists (fun m => call_count m = 0) (registered self) ->
  exists msg,
    __exit__ None self
    = (Raise (AssertionError msg), set_patcher (Some false) self).
Proof.
  intros Hp Hf Hex. unfold __exit__, stop, bind, gets; simpl.
  rewrite Hp; simpl. rewrite Hf; simpl.
  assert (Hsome : filter (fun m => call_count m = 0) (registered self) ≠ []).
  { intros Hnil. apply Exists_exists in Hex as (m & Hin & Hm).
    assert (Hin' : m ∈ filter (fun m => call_count m = 0) (registered self))
      by by apply list_elem_of_filter.
    rewrite Hnil in Hin'. by apply not_elem_of_nil in Hin'. }
  unfold registered in *; simpl in *.
  destruct (filter _ _) as [|m l]; [done|]. by eexists.
Qed.

End Teardown.

(** C3 — teardown with a mock that was never called.  In a session that
    asserts that all requests are fired, with two mocks of which one was
    called, leaving the scope normally raises the assertion error for the
    other mock, and the registry and the call log are still what they were:
    [stop] raised before [reset] could run. *)
Theorem exit_with_unfired_mock_skips_reset :
  __exit__ None teardown_session
  = (Raise (AssertionError
              "Not all requests have been executed [('GET', 'http://y/')]"),
     set_patcher (Some false) teardown_session)
  /\ _matches (__exit__ None teardown_session).2 = [0; 1]
  /\ length (_calls (__exit__ None teardown_session).2) = 1.
Proof. repeat split; vm_compute; reflexivity. Qed.

(** ** Headers *)

Lemma container_get_set (k k' : string) (vals : list string)
    (c : HTTPHeaderDict) :
  container_get k (container_set k' vals c)
  = if String.eqb k' k then Some vals else container_get k c.
Proof.
  unfold container_get.
  induction c as [|e c IH]; simpl.
  - by destruct (String.eqb k' k).
  - destruct (String.eqb_spec e.1 k') as [He|He]; simpl.
    + destruct (String.eqb_spec k' k) as [Hk|Hk]; [done|].
      destruct (String.eqb_spec e.1 k); [congruence|done].
    + destruct (String.eqb_spec e.1 k) as [Hk|Hk]; [|done].
      destruct (String.eqb_spec k' k); [congruence|done].
Qed.

Lemma container_get_snoc (k k' : string) (vals : list string)
    (c : HTTPHeaderDict) :
  container_get k' c = None ->
  container_get k (c ++ [(k', vals)])
  = if String.eqb k' k then Some vals else container_get k c.
Proof.
  unfold container_get.
  induction c as [|e c IH]; simpl; [by destruct (String.eqb k' k)|].
  destruct (String.eqb_spec e.1 k') as [He|He]; [done|]. intros Hc.
  destruct (String.eqb_spec e.1 k) as [Hk|Hk]; simpl.
  - destruct (String.eqb_spec k' k); [congruence|done].
  - by apply IH.
Qed.

(** [add] files a value after those the name already has, or starts the
    name with it, and leaves the other names alone. *)
Lemma container_get_add (k name val : string) (c : HTTPHeaderDict) :
  container_get k (hd_add name val c)
  = if String.eqb (lower name) k
    then Some (default [name] (container_get k c) ++ [val])
    else container_get k c.
Proof.
  unfold hd_add. destruct (container_get (lower name) c) as [vals|] eqn:Hc.
  - rewrite container_get_set.
    destruct (String.eqb_spec (lower name) k) as [<-|]; [|done].
    by rewrite Hc.
  - rewrite container_get_snoc by done.
    destruct (String.eqb_spec (lower name) k) as [<-|]; [|done].
    by rewrite Hc.
Qed.

(** After [extend], a name holds the values it had, followed by the values
    the added headers give under it, in their order. *)
Lemma container_get_extend (name : string) (c : HTTPHeaderDict)
    (other : Headers) :
  container_get (lower name) (hd_extend c other)
  = match container_get (lower name) c with
    | Some vals => Some (vals ++ header_values name other)
    | None =>
        match filter (fun kv => lower kv.1 = lower name) other with
        | [] => None
        | kv :: _ => Some (kv.1 :: header_values name other)
        end
    end.
Proof.
  unfold hd_extend, header_values. revert c.
  induction other as [|kv other IH]; intros c; cbn [foldl].
  - destruct (container_get (lower name) c); [|done]. by rewrite app_nil_r.
  - rewrite IH, container_get_add.
    destruct (String.eqb_spec (lower kv.1) (lower name)) as [He|He].
    + rewrite !(filter_cons_True
                  (fun kv0 : string * string => lower kv0.1 = lower name))
        by done.
      simpl. destruct (container_get (lower name) c) as [vals|]; simpl.
      * by rewrite <- app_assoc.
      * done.
    + by rewrite !(filter_cons_False
                     (fun kv0 : string * string => lower kv0.1 = lower name))
        by done.
Qed.

Lemma hd_get_extend (name : string) (c : HTTPHeaderDict) (other : Headers)
    (vals : list string) :
  container_get (lower name) c = Some vals ->
  hd_get name (hd_extend c other)
  = Some (join ", " (tail (vals ++ header_values name other))).
Proof.
  intros Hc. unfold hd_get. by rewrite container_get_extend, Hc.
Qed.

Lemma hd_get_extend_empty (name : string) (other : Headers) :
  header_values name other ≠ [] ->
  hd_get name (hd_extend [] other) = Some (join ", " (header_values name other)).
Proof.
  intros Hne. unfold hd_get. rewrite container_get_extend. simpl.
  unfold header_values in *.
  by destruct (filter _ other).
Qed.

(** The two tests [get_response] makes on the headers of a callback. *)
Lemma header_values_list_none (l : Headers) :
  existsb (fun h : string * string => String.eqb (lower h.1) "content-type") l
  = false ->
  header_values "Content-Type" l = [].
Proof.
  unfold header_values.
  induction l as [|h l IH]; [done|]. simpl.
  destruct (String.eqb_spec (lower h.1) "content-type") as [He|He]; [done|].
  simpl. intros Hl.
  rewrite (filter_cons_False
             (fun kv : string * string => lower kv.1 = lower "Content-Type"))
    by done.
  by apply IH.
Qed.

Lemma header_values_list_some (l : Headers) :
  existsb (fun h : string * string => String.eqb (lower h.1) "content-type") l
  = true ->
  header_values "Content-Type" l ≠ [].
Proof.
  unfold header_values.
  intros Hex. apply existsb_exists in Hex as (h & Hin & Hh).
  apply String.eqb_eq in Hh.
  assert (Hf : h ∈ filter (fun kv : string * string =>
                             lower kv.1 = lower "Content-Type") l).
  { apply list_elem_of_filter. split; [done|]. by apply list_elem_of_In. }
  intros Hnil. destruct (filter _ l); [by apply not_elem_of_nil in Hf|done].
Qed.

Lemma header_values_dict_some (d : Headers) :
  "Content-Type" ∈ d.*1 ->
  header_values "Content-Type" d ≠ [].
Proof.
  unfold header_values. intros Hin.
  apply list_elem_of_fmap in Hin as ([k v] & Hk & Hin). simpl in Hk. subst k.
  assert (Hf : ("Content-Type", v)
               ∈ filter (fun kv : string * string =>
                           lower kv.1 = lower "Content-Type") d)
    by by apply list_elem_of_filter.
  intros Hnil. destruct (filter _ d); [by apply not_elem_of_nil in Hf|done].
Qed.

(** ** A JSON body *)

Section Json.
Context `{!Lib}.




End Json.

(** ** The theorems at concrete sessions *)

Section Witnesses.
#[local] Existing Instance ascii_lib.

Ltac no_match := intros Hmatching; vm_compute in Hmatching; discriminate.

(** Two mocks for [http://x/] with the bodies [one] and [two]: the first
    dispatch returns [one], counts the call on the first mock and deletes
    it; the second dispatch returns [two] from the second mock, which
    stays. *)
Lemma one_shot_consumption_witness :
  delivered_body (_on_request (GET "http://x/") twice_session).1
  = Some (BufferIO (utf8 "one"))
  /\ _matches (_on_request (GET "http://x/") twice_session).2 = [1]
  /\ call_count <$> ((objects (_on_request (GET "http://x/") twice_session).2)
                       <$> [0; 1]) = [1; 0]
  /\ delivered_body
       (_on_request (GET "http://x/")
          (_on_request (GET "http://x/") twice_session).2).1
     = Some (BufferIO (utf8 "two"))
  /\ _matches (_on_request (GET "http://x/")
                 (_on_request (GET "http://x/") twice_session).2).2 = [1]
  /\ call_count <$> ((objects (_on_request (GET "http://x/")
                                 (_on_request (GET "http://x/") twice_session).2).2)
                       <$> [0; 1]) = [1; 1]
  /\ (fun call => delivered_body (Ok (response call)))
       <$> _calls (_on_request (GET "http://x/")
                     (_on_request (GET "http://x/") twice_session).2).2
     = [Some (BufferIO (utf8 "one")); Some (BufferIO (utf8 "two"))].
Proof.
  destruct (one_shot_consumption twice_session (GET "http://x/") 0 1 [] [] [])
    as (H1 & H2 & H3 & H4 & H5 & H6 & H7 & H8 & _).
  - reflexivity.
  - apply Forall_nil_2.
  - vm_compute; reflexivity.
  - vm_compute; reflexivity.
  - split; [rewrite H1; vm_compute; reflexivity|].
    split; [exact H2|].
    split; [rewrite H4; vm_compute; reflexivity|].
    split; [rewrite H5; vm_compute; reflexivity|].
    split; [rewrite H6; vm_compute; reflexivity|].
    split; [rewrite H8, H4; vm_compute; reflexivity|].
    rewrite H7; vm_compute; reflexivity.
Defined.

(** One mock for [http://x/], dispatched three times. *)
Lemma single_match_idempotence_witness :
  _matches (dispatches 3 (GET "http://x/") passthru_session)
  = _matches passthru_session
  /\ call_count (objects (dispatches 3 (GET "http://x/") passthru_session) 0)
     = call_count (objects passthru_session 0) + 3
  /\ length (_calls (dispatches 3 (GET "http://x/") passthru_session))
     = length (_calls passthru_session) + 3
  /\ _on_request (GET "http://x/") (dispatches 3 (GET "http://x/") passthru_session)
     = respond_with 0 (with_params (GET "http://x/"))
         (dispatches 3 (GET "http://x/") passthru_session).
Proof.
  apply (single_match_idempotence passthru_session (GET "http://x/") 0 [] [] 3).
  - reflexivity.
  - apply Forall_nil_2.
  - vm_compute; reflexivity.
Defined.

(** A request for [http://x/] in a session whose only mock is for
    [http://y/] and which has no response callback. *)
Lemma no_match_dispatch_witness :
  (_on_request (GET "http://x/")
     (after (add (IsMethod "GET") (UStr "http://y/") (BodyText "y") None no_kwargs)
            (RequestsMock__init__ true None [] no_objects 0))).1
  = Raise (ConnectionError
             (refused_head (GET "http://x/")
              +:+ "- GET http://y/ URL does not match" +:+ nl)
             (Some (with_params (GET "http://x/")))).
Proof.
  refine (proj1 (proj2
    (no_match_dispatch
       (after (add (IsMethod "GET") (UStr "http://y/") (BodyText "y") None no_kwargs)
              (RequestsMock__init__ true None [] no_objects 0))
       (GET "http://x/") _ _)) _).
  - apply Forall_cons_2; [no_match|apply Forall_nil_2].
  - reflexivity.
  - reflexivity.
Defined.

(** The claim of C5 as the specification words it fails in a session with a
    response callback: no mock matches the request and no passthrough prefix
    applies, yet what the dispatch raises is the callback's error, not a
    connection error. *)
Lemma no_match_dispatch_raises_callback_result :
  Forall (fun a => ¬ matching (objects callback_session) (GET "http://x/") a)
         (_matches callback_session)
  /\ passthru (passthru_prefixes callback_session) (GET "http://x/") = false
  /\ (_on_request (GET "http://x/") callback_session).1
     = Raise (UserError "replaced")
  /\ ¬ exists msg request,
         (_on_request (GET "http://x/") callback_session).1
         = Raise (ConnectionError msg request).
Proof.
  split; [|split; [|split]].
  - apply Forall_cons_2; [no_match|apply Forall_nil_2].
  - reflexivity.
  - vm_compute; reflexivity.
  - intros (msg & request & Heq). vm_compute in Heq. discriminate.
Qed.

(** Replacing the one mock of a session by a new one for the same url. *)
Lemma replace_semantics_witness :
  exists self',
    replace (IsMethod "GET") (UStr "http://x/") (BodyText "new") None no_kwargs
            passthru_session
    = (Ok tt, self')
    /\ registered self'
       = <[0 := subclass (BaseResponse__init__ "GET" (UStr "http://x/") UNSET [])
                  (Some "text/plain") None false (Static (BodyText "new") 200)]>
           (registered passthru_session)
    /\ _calls self' = _calls passthru_session
    /\ upsert (IsMethod "GET") (UStr "http://x/") (BodyText "new") None no_kwargs
              passthru_session
       = (Ok tt, self').
Proof.
  refine (proj1
    (replace_semantics passthru_session (IsMethod "GET") (UStr "http://x/")
       (BodyText "new") None no_kwargs
       (subclass (BaseResponse__init__ "GET" (UStr "http://x/") UNSET [])
          (Some "text/plain") None false (Static (BodyText "new") 200))
       _ _) 0 0 _ _ _).
  - reflexivity.
  - intros Hin. apply list_elem_of_singleton in Hin. discriminate.
  - reflexivity.
  - vm_compute; reflexivity.
  - intros j b _ Hlt. inversion Hlt.
Defined.



(** The claim of C6 as the specification words it fails for a mock whose
    url is written [http://X/?a=1]: a request to that very url, whose
    scheme, host, path and query are the mock's own, is refused, and a
    request to [http://x/?a=1], whose host differs from the mock's, is
    accepted.  The comparison is with the mock's url as urllib3 writes
    it. *)
Lemma strict_matching_compares_normalised_url :
  exists mock,
    upper_host_mock = Ok mock
    /\ url mock = UStr "http://X/?a=1"
    /\ netloc (urlparse "http://X/?a=1") = "X"
    /\ netloc (urlparse "http://x/?a=1") = "x"
    /\ matches mock (GET "http://X/?a=1") = (false, "URL does not match")
    /\ matches mock (GET "http://x/?a=1") = (true, "").
Proof.
  eexists. split; [reflexivity|]. repeat split; vm_compute; reflexivity.
Qed.


End Witnesses.

(** * Further properties of the code *)

(** ** The scan and the dispatch as a whole *)

Section DispatchAll.
Context `{!Lib}.

Lemma set_matches_same (self : RequestsMock) :
  set_matches (_matches self) self = self.
Proof. by destruct self. Qed.

Lemma raise_obj_state {A} (o : Obj) (self : RequestsMock) :
  (@raise_obj A o self).2 = self.
Proof. by destruct o. Qed.

Lemma _on_request_first (self : RequestsMock) (request : PreparedRequest)
    (a : addr) (l1 l2 : list addr) :
  _matches self = l1 ++ a :: l2 ->
  Forall (fun b => ¬ matching (objects self) request b) l1 ->
  matching (objects self) request a ->
  _on_request request self
  = respond_with a (with_params request)
      (if decide (Exists (matching (objects self) request) l2)
       then set_matches (l1 ++ l2) self
       else self).
Proof.
  intros Hm Hno Ha.
  destruct (decide (Exists (matching (objects self) request) l2)) as [Hex|Hex].
  - destruct (first_matching _ l2 Hex) as (l2a & b & l3 & -> & Hno2 & Hb).
    apply _on_request_two; [done| |done..]. by apply Forall_app.
  - apply not_Exists_Forall in Hex; [|apply _].
    apply (_on_request_single request self a l1 l2); [done| |done].
    by apply Forall_app.
Qed.


Lemma dispatch_frame_aux (self : RequestsMock) (request : PreparedRequest) :
  let self' := (_on_request request self).2 in
  assert_all_requests_are_fired self' = assert_all_requests_are_fired self
  /\ response_callback self' = response_callback self
  /\ passthru_prefixes self' = passthru_prefixes self
  /\ _patcher self' = _patcher self
  /\ next_id self' = next_id self
  /\ _matches self' `sublist_of` _matches self
  /\ length (_matches self) <= S (length (_matches self'))
  /\ _calls self `prefix_of` _calls self'
  /\ (objects self' = objects self
      \/ exists a, objects self'
                   = <[a := count_call (objects self a)]> (objects self)).
Proof.
  simpl.
  destruct (registry_cases (objects self) request (_matches self))
    as [Hno|[(l1 & a & l2 & Hm & Hno & Ha)
            |(l1 & a & l2 & b & l3 & Hm & Hno & Ha & Hb)]].
  - destruct (passthru (passthru_prefixes self) request) eqn:Hp.
    + rewrite _on_request_none, unmatched_passthru by done. simpl.
      repeat split; try done. * lia. * by left.
    + rewrite (_on_request_refused self request Hno Hp), raise_obj_state. simpl.
      repeat split; try done. * lia. * by apply prefix_app_r. * by left.
  - rewrite (_on_request_single request self a l1 l2) by done.
    destruct (respond_with_state a (with_params request) self)
      as (out & logged & ->). simpl.
    repeat split; try done. * lia. * by apply prefix_app_r. * right. by exists a.
  - rewrite (_on_request_two request self a b l1 l2 l3) by done.
    destruct (respond_with_state a (with_params request)
                (set_matches (l1 ++ l2 ++ b :: l3) self))
      as (out & logged & ->). simpl. rewrite Hm.
    repeat split; try done.
    * apply sublist_app; [done|]. by apply sublist_cons.
    * rewrite !length_app; simpl. rewrite !length_app; simpl. lia.
    * by apply prefix_app_r.
    * right. by exists a.
Qed.


(** X3 — what a dispatch leaves alone.  A dispatch changes neither the
    settings of the session nor the supply of identities; the registry
    afterwards is the old one with at most one entry deleted; the call log
    afterwards begins with the old call log; and the objects are unchanged
    except that, at most, one of them has one more call counted. *)
Theorem dispatch_frame (self : RequestsMock) (request : PreparedRequest) :
  let self' := (_on_request request self).2 in
  assert_all_requests_are_fired self' = assert_all_requests_are_fired self
  /\ response_callback self' = response_callback self
  /\ passthru_prefixes self' = passthru_prefixes self
  /\ _patcher self' = _patcher self
  /\ next_id self' = next_id self
  /\ _matches self' `sublist_of` _matches self
  /\ length (_matches self) <= S (length (_matches self'))
  /\ _calls self `prefix_of` _calls self'
  /\ (objects self' = objects self
      \/ exists a, objects self'
                   = <[a := count_call (objects self a)]> (objects self)).
Proof. apply dispatch_frame_aux. Qed.

End DispatchAll.

(** ** Materialisation *)

Section Materialisation.
Context `{!Lib}.

Lemma _handle_body_ok (body : Body) :
  (forall e, body ≠ BodyExc e) -> exists stream, _handle_body body = Ok stream.
Proof. intros Hne. destruct body; simpl; eauto. by destruct (Hne e). Qed.

(** X4 — what [get_response] raises.  Materialising a mock raises exactly
    in these cases, and then exactly the exception named: the body of a
    [Response] is an exception; the callback of a [CallbackResponse] hands
    back an exception, or a triple whose body is one; the mock is a bare
    [BaseResponse].  In particular wrapping the body never fails. *)
Theorem get_response_raises_iff (self : BaseResponse)
    (request : PreparedRequest) (e : Exception) :
  get_response self request = Raise e
  <-> (variant self = Base /\ e = NotImplementedError)
      \/ (exists status, variant self = Static (BodyExc e) status)
      \/ (exists callback,
             variant self = Callback callback
             /\ (callback request = ReturnsExc e
                 \/ exists status r_headers,
                      callback request = ReturnsTuple status r_headers (BodyExc e))).
Proof.
  unfold get_response. destruct (variant self) as [|body status|callback].
  - split.
    + intros [= <-]. by left.
    + intros [[_ ->]|[(? & [=])|(? & [=] & _)]]. done.
  - split.
    + intros Hr. right; left. exists status.
      destruct body; simpl in Hr; try discriminate. by inversion Hr.
    + intros [[[=] _]|[(? & [= -> ->])|(? & [=] & _)]]. done.
  - split.
    + intros Hr. right; right. exists callback. split; [done|].
      destruct (callback request) as [e'|status r_headers body].
      * left. by inversion Hr.
      * right. exists status, r_headers.
        destruct body; simpl in Hr; try discriminate. by inversion Hr.
    + intros [[[=] _]|[(? & [=])|(cb & [= <-] & Hcb)]].
      destruct Hcb as [->|(status & r_headers & ->)]; done.
Qed.

(** X5 — a mock that raises.  When the first mock matching a request
    raises on materialisation, the dispatch raises that very exception, with
    or without a response callback, after it has counted the call on the
    mock and appended the pair of the request and the exception to the call
    log. *)
Theorem raising_mock_is_counted_and_logged (self : RequestsMock)
    (request : PreparedRequest) (a : addr) (l1 l2 : list addr) (e : Exception) :
  _matches self = l1 ++ a :: l2 ->
  Forall (fun b => ¬ matching (objects self) request b) l1 ->
  matching (objects self) request a ->
  get_response (objects self a) (with_params request) = Raise e ->
  (_on_request request self).1 = Raise e
  /\ _calls (_on_request request self).2
     = _calls self ++ [{| request := with_params request; response := ObjExc e |}]
  /\ call_count (objects (_on_request request self).2 a)
     = S (call_count (objects self a)).
Proof.
  intros Hm Hno Ha Hr.
  rewrite (_on_request_first self request a l1 l2) by done.
  set (self0 := if decide _ then _ else self).
  assert (Hobj : objects self0 = objects self) by (unfold self0; by destruct (decide _)).
  assert (Hcalls : _calls self0 = _calls self) by (unfold self0; by destruct (decide _)).
  rewrite respond_with_call_count, Hobj.
  unfold respond_with, bind, gets; simpl. rewrite Hobj, Hr; simpl.
  by rewrite Hcalls.
Qed.

(** X7 — the content type of a callback response.  Let a callback mock with
    the declared content type [ct] get the triple [(status, r_headers, body)]
    from its callback, [body] not being an exception.  If [r_headers] is a
    list with a header named content-type in any letter case, or a dict with
    the key [Content-Type] in exactly this spelling, the declared content
    type is dropped: the response has the callback's headers only and its
    [Content-Type] holds the callback's values.  Otherwise the declared
    content type stays first under [Content-Type]; what a dict gives under
    another spelling of the name is filed after it, under the same name. *)
Theorem callback_content_type (m : string) (url : Url)
    (callback : PreparedRequest -> CallbackReturn) (st : bool) (ct : string)
    (mq : arg bool) (ms : list Matcher) (request : PreparedRequest)
    (status : Z) (r_headers : RHeaders) (body : Body) :
  callback request = ReturnsTuple status r_headers body ->
  (forall e, body ≠ BodyExc e) ->
  let detected :=
    match r_headers with
    | HDict d => bool_decide ("Content-Type" ∈ d.*1)
    | HList l => existsb (fun h => String.eqb (lower h.1) "content-type") l
    end in
  let given := header_values "Content-Type" (r_items r_headers) in
  exists raw,
    get_response (CallbackResponse__init__ m url callback st (Some ct) mq ms)
                 request = Ok raw
    /\ raw_status raw = status
    /\ raw_headers raw
       = hd_extend (if detected then []
                    else [("content-type", ["Content-Type"; ct])])
                   (r_items r_headers)
    /\ hd_get "Content-Type" (raw_headers raw)
       = Some (join ", " (if detected then given else ct :: given))
    /\ (detected = true -> given ≠ [])
    /\ (forall l, r_headers = HList l -> detected = false -> given = []).
Proof.
  intros Hcb Hbody detected given.
  assert (Hgiven : detected = true -> given ≠ []).
  { unfold detected, given. destruct r_headers as [d|l]; simpl.
    - intros Hin%bool_decide_eq_true_1. by apply header_values_dict_some.
    - apply header_values_list_some. }
  assert (Hlist : forall l, r_headers = HList l -> detected = false -> given = []).
  { intros l Hl. unfold detected, given. rewrite Hl. simpl.
    apply header_values_list_none. }
  destruct (_handle_body_ok body Hbody) as [stream Hs].
  exists {| raw_status := status;
            raw_reason := http_client_responses status;
            raw_body := stream;
            raw_headers :=
              hd_extend (if detected then []
                         else [("content-type", ["Content-Type"; ct])])
                        (r_items r_headers);
            original_response :=
              {| msg := hd_extend (if detected then []
                                   else [("content-type", ["Content-Type"; ct])])
                                  (r_items r_headers) |};
            preload_content := false |}.
  split.
  { unfold get_response; simpl. rewrite Hcb.
    destruct body as [t|b|fd|e]; try (by destruct (Hbody e));
      simpl in Hs; injection Hs as <-; fold detected;
      by destruct detected. }
  split; [done|]. split; [done|]. split; [|done].
  simpl. destruct detected eqn:Hd.
  - by apply hd_get_extend_empty, Hgiven.
  - by rewrite (hd_get_extend _ _ _ ["Content-Type"; ct]).
Qed.


End Materialisation.

(** ** The session: teardown, reset and passthrough *)

Section SessionFacts.
Context `{!Lib}.

(** X8 — when [stop] raises.  In a started session [stop] marks the patch
    as removed and changes nothing else, whether it raises or not; it
    returns normally when called with [allow_assert] false, and with
    [allow_assert] true it returns normally exactly when the session does
    not assert that all requests are fired or every registered mock has a
    call counted; otherwise it raises the assertion error that lists the
    mocks without a call, in registry order. *)
Theorem stop_raises_iff (self : RequestsMock) (b : bool) :
  _patcher self = Some b ->
  stop false self = (Ok tt, set_patcher (Some false) self)
  /\ (stop true self).2 = set_patcher (Some false) self
  /\ ((stop true self).1 = Ok tt
      <-> assert_all_requests_are_fired self = false
          \/ Forall (fun m => call_count m ≠ 0) (registered self))
  /\ (forall e, (stop true self).1 = Raise e ->
        e = AssertionError
              ("Not all requests have been executed "
               +:+ repr_pairs (filter (fun m => call_count m = 0)
                                      (registered self)))).
Proof.
  intros Hp.
  assert (Hfilter : filter (fun m => call_count m = 0) (registered self) = []
                    <-> Forall (fun m => call_count m ≠ 0) (registered self)).
  { induction (registered self) as [|m l IH]; [by split; [constructor|]|].
    destruct (decide (call_count m = 0)) as [Hm|Hm].
    - rewrite filter_cons_True by done. split; [done|].
      intros Hall. inversion Hall; subst. done.
    - rewrite filter_cons_False by done. rewrite IH. split.
      + by constructor.
      + intros Hall. by inversion Hall. }
  unfold stop, bind, gets, modify, ret, raise; simpl. rewrite Hp; simpl.
  destruct (assert_all_requests_are_fired self) eqn:Hf; simpl.
  - change (registered (set_patcher (Some false) self)) with (registered self).
    rewrite <- Hfilter.
    destruct (filter _ (registered self)) as [|m l] eqn:Hun; simpl.
    + split; [done|]. split; [done|]. split; [|by intros e [=]].
      split; [by right|done].
    + split; [done|]. split; [done|]. split.
      * split; [done|]. by intros [|].
      * by intros e [= <-].
  - split; [done|]. split; [done|]. split; [|by intros e [=]].
    split; [by left|done].
Qed.

(** X9 — dispatch on an empty registry.  After [reset] the registry and the
    call log are empty while the passthrough prefixes are those of before,
    so a request under one of the prefixes is still handed to the real
    transport, and any other request is refused with a message that lists
    no mock, the refusal being the one record of the call log. *)
Theorem dispatch_after_reset (self : RequestsMock) (request : PreparedRequest) :
  let fresh := after reset self in
  let error := ConnectionError (refused_head (with_params request))
                               (Some (with_params request)) in
  _matches fresh = [] /\ _calls fresh = []
  /\ (passthru (passthru_prefixes self) request = true ->
      _on_request request fresh = (_real_send (with_params request), fresh))
  /\ (passthru (passthru_prefixes self) request = false ->
      _on_request request fresh
      = raise_obj (apply_callback (response_callback self) (ObjExc error))
          (set_calls [{| request := with_params request;
                         response := ObjExc error |}] fresh)).
Proof.
  simpl. split; [done|]. split; [done|]. split; intros Hp.
  - rewrite _on_request_none by apply Forall_nil_2.
    by apply unmatched_passthru.
  - rewrite (_on_request_refused (after reset self) request) by
      (done || apply Forall_nil_2).
    simpl. unfold registered, listing; simpl. by rewrite append_nil_r.
Qed.

Lemma prefix_append (p rest : string) : String.prefix p (p +:+ rest) = true.
Proof.
  induction p as [|c p IH]; [by destruct rest|].
  change (String c p +:+ rest) with (String c (p +:+ rest)). simpl.
  by destruct (ascii_dec c c).
Qed.

(** X10 — a passthrough prefix lets requests through.  After
    [add_passthru] of a text prefix without characters above 128, or of a
    pattern, a request that no registered mock matches and whose url starts
    with the prefix, or is matched by the pattern, is handed to the real
    transport, and the session is left as it is. *)
Theorem add_passthru_lets_through (self : RequestsMock) (prefix : Url)
    (request : PreparedRequest) :
  Forall (fun a => ¬ matching (objects self) request a) (_matches self) ->
  match prefix with
  | UStr p => _has_unicode p = false /\ exists rest, req_url request = p +:+ rest
  | UPat p => re_match p (req_url request) = true
  end ->
  _on_request request (after (add_passthru prefix) self)
  = (_real_send (with_params request), after (add_passthru prefix) self).
Proof.
  intros Hno Hpre. rewrite _on_request_none by done.
  apply unmatched_passthru.
  unfold passthru, after, add_passthru, modify; simpl.
  rewrite existsb_app. apply orb_true_iff. right. simpl.
  destruct prefix as [p|p].
  - destruct Hpre as [-> [rest ->]]. unfold startswith.
    by rewrite prefix_append.
  - by rewrite Hpre.
Qed.





End SessionFacts.

(** ** The params of a request, again *)

Section ParamsFacts.
Context `{!Lib}.

Lemma groupby_nonempty {A K : Type} `{EqDecision K} (key : A -> K) (l : list A) :
  Forall (fun g => g.2 ≠ []) (groupby key l).
Proof.
  induction l as [|x l IH]; simpl; [constructor|].
  destruct (groupby key l) as [|[k g] gs]; simpl in *.
  - by repeat constructor.
  - inversion IH as [|?? Hg Hgs]; subst.
    destruct (decide (key x = k)); by repeat constructor.
Qed.

Lemma last_filter_is_Some {A} (P : A -> Prop) `{!forall x, Decision (P x)}
    (l : list A) :
  is_Some (last (filter P l)) <-> exists x, x ∈ l /\ P x.
Proof.
  rewrite last_is_Some. split.
  - intros Hne. destruct (filter P l) as [|x l'] eqn:Hf; [done|].
    assert (x ∈ filter P l) as Hin by (rewrite Hf; by left).
    apply list_elem_of_filter in Hin as [HP Hx]. by exists x.
  - intros (x & Hx & HP) Hnil.
    assert (x ∈ filter P l) as Hin by by apply list_elem_of_filter.
    rewrite Hnil in Hin. by apply not_elem_of_nil in Hin.
Qed.

Lemma elem_of_concat {A} (x : A) (ls : list (list A)) :
  x ∈ concat ls <-> exists l, x ∈ l /\ l ∈ ls.
Proof.
  induction ls as [|l ls IH]; simpl.
  - split; [by intros ?%not_elem_of_nil|]. by intros (l & _ & ?%not_elem_of_nil).
  - rewrite elem_of_app, IH. split.
    + intros [Hx|(l' & Hx & Hl')]; [exists l|exists l']; split; try done;
        by constructor.
    + intros (l' & Hx & Hl'). inversion Hl'; subst; [by left|right; eauto].
Qed.

(** X12 — keys and values of [params].  The keys of the mapping that
    [_parse_request_params] builds are exactly the keys of the pairs
    [parse_qsl] reads from the query; and a key is never mapped to a list of
    fewer than two values: it has a single value or a list of at least two. *)
Theorem params_keys_and_values (url : string) (k : string) :
  (is_Some (_parse_request_params url !! k)
   <-> k ∈ (parse_qsl (query (urlparse url))).*1)
  /\ (forall vs, _parse_request_params url !! k = Some (Multi vs) ->
        2 <= length vs).
Proof.
  rewrite _parse_request_params_lookup.
  set (l := parse_qsl (query (urlparse url))).
  pose proof (groupby_concat fst l) as Hcat.
  pose proof (groupby_keys fst l) as Hkeys.
  pose proof (groupby_nonempty fst l) as Hne.
  split.
  - rewrite !fmap_is_Some, last_filter_is_Some. split.
    + intros ([key g] & Hin & Hk). simpl in Hk. subst key.
      rewrite Forall_forall in Hkeys, Hne.
      specialize (Hkeys _ Hin). specialize (Hne _ Hin). simpl in *.
      destruct g as [|[k' v] g]; [done|].
      inversion Hkeys as [|?? Hk' _]; subst. simpl in *.
      apply list_elem_of_fmap. exists (k', v). split; [done|].
      rewrite <- Hcat. apply elem_of_concat.
      exists ((k', v) :: g). split; [by left|].
      apply list_elem_of_fmap. by exists (k', (k', v) :: g).
    + intros ([k' v] & -> & Hin)%list_elem_of_fmap. simpl.
      rewrite <- Hcat in Hin.
      apply elem_of_concat in Hin as (g & Hv & Hg).
      apply list_elem_of_fmap in Hg as ([key g'] & -> & Hg). simpl in *.
      exists (key, g'). split; [done|]. simpl.
      rewrite Forall_forall in Hkeys. specialize (Hkeys _ Hg). simpl in Hkeys.
      rewrite Forall_forall in Hkeys. by rewrite <- (Hkeys _ Hv).
  - intros vs Hvs.
    destruct (last (filter _ (groupby fst l))) as [[key g]|] eqn:Hlast; [|done].
    apply last_Some in Hlast as [runs Hlast].
    assert (Hin : (key, g) ∈ groupby fst l).
    { assert (Hf : (key, g) ∈ filter (fun g : string * list (string * string) => g.1 = k)
                                     (groupby fst l))
        by (rewrite Hlast, elem_of_app; right; by left).
      by apply list_elem_of_filter in Hf as [_ Hf]. }
    rewrite Forall_forall in Hne. specialize (Hne _ Hin). simpl in Hne.
    simpl in Hvs. unfold collapse in Hvs.
    destruct g as [|kv1 [|kv2 g]]; [done|done|].
    simpl in Hvs. inversion Hvs; subst. simpl. lia.
Qed.

End ParamsFacts.

(** ** Equality of mocks and the registry operations, again *)

Section RegistryFacts.
Context `{!Lib}.

(** X13 — equality of mocks is an equivalence.  [__eq__] is reflexive,
    symmetric and transitive, which [x in list], [list.index] and
    [list.remove] rely on. *)
Theorem BaseResponse__eq___equivalence :
  (forall r, BaseResponse__eq__ r r = true)
  /\ (forall r1 r2, BaseResponse__eq__ r1 r2 = BaseResponse__eq__ r2 r1)
  /\ (forall r1 r2 r3,
        BaseResponse__eq__ r1 r2 = true -> BaseResponse__eq__ r2 r3 = true ->
        BaseResponse__eq__ r1 r3 = true).
Proof.
  split; [|split].
  - intros r. by apply BaseResponse__eq__iff.
  - intros r1 r2. apply Bool.eq_true_iff_eq.
    rewrite !BaseResponse__eq__iff. split; by intros [-> ->].
  - intros r1 r2 r3. rewrite !BaseResponse__eq__iff.
    intros [-> ->] [-> ->]. done.
Qed.

Lemma mocks_equal_their_key_aux (m : string) (url : Url) :
  (forall body json status headers stream content_type mq ms r,
      Response__init__ m url body json status headers stream content_type mq ms
      = Ok r ->
      BaseResponse__eq__ r (BaseResponse__init__ m url UNSET []) = true)
  /\ (forall callback stream content_type mq ms,
        BaseResponse__eq__
          (CallbackResponse__init__ m url callback stream content_type mq ms)
          (BaseResponse__init__ m url UNSET []) = true).
Proof.
  split.
  - intros body json status headers stream content_type mq ms r Hr.
    apply BaseResponse__eq__iff.
    unfold Response__init__ in Hr.
    destruct json as [j|]; [destruct (body_truthy body); [done|]|];
      by injection Hr as <-.
  - intros. by apply BaseResponse__eq__iff.
Qed.

(** X14 — mocks of one method and url are equal.  A [Response] and a
    [CallbackResponse] built for a method and a url are equal to the key
    [BaseResponse(method, url)], whatever their bodies, status, headers,
    callbacks and matching options; so [remove(method, url)] finds all of
    them. *)
Theorem mocks_equal_their_key (m : string) (url : Url) :
  (forall body json status headers stream content_type mq ms r,
      Response__init__ m url body json status headers stream content_type mq ms
      = Ok r ->
      BaseResponse__eq__ r (BaseResponse__init__ m url UNSET []) = true)
  /\ (forall callback stream content_type mq ms,
        BaseResponse__eq__
          (CallbackResponse__init__ m url callback stream content_type mq ms)
          (BaseResponse__init__ m url UNSET []) = true).
Proof. apply mocks_equal_their_key_aux. Qed.

Lemma remove_state (self : RequestsMock) (method_or_response : MethodOrResponse)
    (url : Url) :
  after (remove method_or_response url) self
  = set_matches
      (filter (fun a =>
                 BaseResponse__eq__ (objects self a)
                   (match method_or_response with
                    | IsResponse a => objects self a
                    | IsMethod m => BaseResponse__init__ m url UNSET []
                    end) = false)
              (_matches self))
      self.
Proof.
  unfold after.
  destruct method_or_response as [a|m]; simpl;
    unfold remove, bind, gets, ret, lift, modify; simpl;
    by rewrite remove_loop_filter.
Qed.

(** X15 — [remove] is idempotent, and a no-op without an equal entry.
    Removing the same key a second time changes nothing, and removing a key
    that no registered mock is equal to leaves the session as it is. *)
Theorem remove_idempotent (self : RequestsMock)
    (method_or_response : MethodOrResponse) (url : Url) :
  after (remove method_or_response url)
        (after (remove method_or_response url) self)
  = after (remove method_or_response url) self
  /\ (Forall (fun a =>
                BaseResponse__eq__ (objects self a)
                  (match method_or_response with
                   | IsResponse a => objects self a
                   | IsMethod m => BaseResponse__init__ m url UNSET []
                   end) = false)
             (_matches self) ->
      after (remove method_or_response url) self = self).
Proof.
  split.
  - rewrite !remove_state. simpl.
    assert (Hff : forall (P : addr -> Prop) `{!forall a, Decision (P a)}
                         (l : list addr),
               filter P (filter P l) = filter P l).
    { intros P ? l. induction l as [|a l IH]; [done|].
      destruct (decide (P a)) as [Ha|Ha].
      - rewrite (filter_cons_True P a l) by done.
        rewrite (filter_cons_True P a (filter P l)) by done.
        by rewrite IH.
      - by rewrite !filter_cons_False. }
    by rewrite Hff.
  - intros Hall. rewrite remove_state.
    assert (Hid : forall (P : addr -> Prop) `{!forall a, Decision (P a)}
                         (l : list addr),
               Forall P l -> filter P l = l).
    { intros P ? l Hl. induction Hl as [|a l Ha _ IH]; [done|].
      by rewrite filter_cons_True, IH. }
    rewrite Hid by done. apply set_matches_same.
Qed.

(** X16 — after [remove], [replace] finds nothing.  Once
    [remove(method, url)] has run, [replace(method, url, ...)] raises the
    [ValueError] for a response that is not registered, whatever the other
    arguments of the new response, and leaves the session as [remove] left
    it. *)
Theorem replace_after_remove_raises (self : RequestsMock) (m : string)
    (url : Url) (body : Body) (args : option Headers) (kwargs : Kwargs)
    (response : BaseResponse) :
  new_Response m url body kwargs = Ok response ->
  replace (IsMethod m) url body args kwargs
          (after (remove (IsMethod m) url) self)
  = (Raise (ValueError ("Response is not registered for URL " +:+ str_url url)),
     after (remove (IsMethod m) url) self).
Proof.
  intros Hnew. rewrite remove_state. simpl.
  set (key := BaseResponse__init__ m url UNSET []).
  assert (Hkey : forall r, BaseResponse__eq__ r response = BaseResponse__eq__ r key).
  { intros r. apply Bool.eq_true_iff_eq. rewrite !BaseResponse__eq__iff.
    assert (Heq : BaseResponse__eq__ response key = true)
      by (eapply (proj1 (mocks_equal_their_key_aux m url)); exact Hnew).
    apply BaseResponse__eq__iff in Heq as [Hm Hu].
    by rewrite Hm, Hu. }
  unfold replace, bind, gets, lift, raise; simpl. rewrite Hnew; simpl.
  rewrite list_index_None; [done|].
  apply Forall_forall. intros a Ha.
  apply list_elem_of_filter in Ha as [Ha _].
  rewrite Hkey. simpl. by rewrite Ha.
Qed.

End RegistryFacts.

Section MoreRegistryFacts.
Context `{!Lib}.

(** X17 — [add] and then [remove] give the registry back.  When no
    registered mock is equal to the key of a method and a url, adding a
    response for them and then removing that method and url leaves the
    registered mocks exactly as they were. *)
Theorem add_then_remove_round_trip (self : RequestsMock) (m : string)
    (url : Url) (body : Body) (adding_headers : option Headers)
    (kwargs : Kwargs) :
  (add (IsMethod m) url body adding_headers kwargs self).1 = Ok tt ->
  next_id self ∉ _matches self ->
  Forall (fun a => BaseResponse__eq__ (objects self a)
                     (BaseResponse__init__ m url UNSET []) = false)
         (_matches self) ->
  registered (after (remove (IsMethod m) url)
                (after (add (IsMethod m) url body adding_headers kwargs) self))
  = registered self.
Proof.
  intros Hadd Hfresh Hnone.
  set (kwargs' := match adding_headers with
                  | Some h => setdefault_headers h kwargs
                  | None => kwargs
                  end).
  destruct (new_Response m url body kwargs') as [r|e] eqn:Hnew; cycle 1.
  { unfold add, bind, lift in Hadd. fold kwargs' in Hadd.
    by rewrite Hnew in Hadd. }
  assert (Hr : BaseResponse__eq__ r (BaseResponse__init__ m url UNSET []) = true)
    by (eapply (proj1 (mocks_equal_their_key_aux m url)); exact Hnew).
  rewrite remove_state.
  set (self1 := after (add (IsMethod m) url body adding_headers kwargs) self).
  assert (Hobj : objects self1 = <[next_id self := r]> (objects self)).
  { unfold self1, after, add, bind, lift. fold kwargs'. by rewrite Hnew. }
  assert (Hreg : _matches self1 = _matches self ++ [next_id self]).
  { unfold self1, after, add, bind, lift. fold kwargs'. by rewrite Hnew. }
  unfold registered; simpl. rewrite Hreg, Hobj, filter_app.
  rewrite (filter_cons_False _ (next_id self))
    by (rewrite fn_lookup_insert, Hr; done).
  rewrite filter_nil, app_nil_r.
  assert (Hkeep : filter
            (fun a => BaseResponse__eq__
                        ((<[next_id self := r]> (objects self)) a)
                        (BaseResponse__init__ m url UNSET []) = false)
            (_matches self) = _matches self).
  { revert Hfresh Hnone. generalize (_matches self) as l.
    induction l as [|a l IH]; intros Hfresh Hnone; [done|].
    inversion Hnone; subst.
    apply not_elem_of_cons in Hfresh as [Hne Hfresh].
    rewrite filter_cons_True by (by rewrite fn_lookup_insert_ne).
    by rewrite IH. }
  rewrite Hkeep. by apply registered_fresh.
Qed.

End MoreRegistryFacts.

(** ** Urls and bodies *)

Section UrlFacts.
Context `{!Lib}.

Lemma _has_unicode_append (s1 s2 : string) :
  _has_unicode (s1 +:+ s2) = _has_unicode s1 || _has_unicode s2.
Proof.
  unfold _has_unicode. induction s1 as [|c s1 IH]; [done|].
  change (String c s1 +:+ s2) with (String c (s1 +:+ s2)). simpl.
  by rewrite IH, orb_assoc.
Qed.

(** X18 — [_clean_unicode] leaves no character above 128.  If [quote]
    writes only characters up to 128, the text [_clean_unicode] returns has
    no character above 128, for every url; and a url without such
    characters whose host has none either is returned as it is. *)
Theorem _clean_unicode_cleans (url : string) :
  ((forall x, _has_unicode (quote x) = false) ->
   _has_unicode (_clean_unicode url) = false)
  /\ (_has_unicode url = false ->
      _has_unicode (sp_netloc (urlsplit url)) = false ->
      _clean_unicode url = url).
Proof.
  split.
  - intros Hq. unfold _clean_unicode.
    match goal with
    | |- context [list_ascii_of_string ?t] => generalize t
    end.
    intros s. induction (list_ascii_of_string s) as [|x chars IH]; [done|].
    cbn [map]. rewrite join_empty_cons, _has_unicode_append, IH.
    destruct (128 <? ord x)%nat eqn:Hx; [by rewrite Hq|].
    unfold _has_unicode; simpl. by rewrite Hx.
  - intros Hu Hn. unfold _clean_unicode. rewrite Hn. clear Hn.
    revert Hu. unfold _has_unicode.
    induction url as [|c url IH]; [done|].
    cbn [list_ascii_of_string existsb map].
    intros [Hc Hrest]%orb_false_iff.
    rewrite Hc, join_empty_cons. by rewrite IH.
Qed.

Lemma split1_no_separator (c : ascii) (s : string) :
  c ∉ list_ascii_of_string s -> split1 c s = (s, None).
Proof.
  induction s as [|a s IH]; [done|]. simpl.
  intros [Hne Hs]%not_elem_of_cons.
  destruct (Ascii.eqb_spec a c) as [->|_]; [done|].
  by rewrite IH.
Qed.

Lemma split1_at_separator (c : ascii) (s rest : string) :
  c ∉ list_ascii_of_string s ->
  split1 c (s +:+ String c rest) = (s, Some rest).
Proof.
  induction s as [|a s IH]; simpl.
  - intros _. change ("" +:+ String c rest) with (String c rest). simpl.
    by rewrite Ascii.eqb_refl.
  - intros [Hne Hs]%not_elem_of_cons.
    change (String a s +:+ String c rest) with (String a (s +:+ String c rest)).
    simpl. destruct (Ascii.eqb_spec a c) as [->|_]; [done|].
    by rewrite IH.
Qed.

(** X19 — without strict matching the query strings are ignored.  For a
    mock with a literal url and [match_querystring] false, a request url
    with a query string matches exactly when the same url without it does;
    and, for a mock url free of characters above 128, a mock url with a query
    string matches exactly the request urls the mock url without it
    matches. *)
Theorem lenient_matching_ignores_query (url other query : string) :
  "?"%char ∉ list_ascii_of_string other ->
  _url_matches (UStr url) (other +:+ "?" +:+ query) false
  = _url_matches (UStr url) other false
  /\ ("?"%char ∉ list_ascii_of_string url ->
      _has_unicode (url +:+ "?" +:+ query) = false ->
      forall request_url,
        _url_matches (UStr (url +:+ "?" +:+ query)) request_url false
        = _url_matches (UStr url) request_url false).
Proof.
  intros Hother. split.
  - unfold _url_matches.
    change (other +:+ "?" +:+ query) with (other +:+ String "?" query).
    rewrite (split1_at_separator "?" other query Hother).
    by rewrite (split1_no_separator "?" other Hother).
  - intros Hurl Hu request_url.
    pose proof Hu as Hu'.
    rewrite _has_unicode_append in Hu'. apply orb_false_iff in Hu' as [Hu1 _].
    unfold _url_matches. rewrite Hu, Hu1.
    change (url +:+ "?" +:+ query) with (url +:+ String "?" query).
    rewrite (split1_at_separator "?" url query Hurl).
    by rewrite (split1_no_separator "?" url Hurl).
Qed.

(** X20 — all body matchers must pass.  [_body_matches] is true exactly
    when every matcher of the list is true of the request body; with no
    matcher it is true. *)
Theorem _body_matches_iff (ms : list Matcher) (request_body : option bytes) :
  _body_matches ms request_body = true
  <-> Forall (fun matcher => matcher request_body = true) ms.
Proof.
  induction ms as [|matcher ms IH]; simpl.
  - by split; [constructor|].
  - destruct (matcher request_body) eqn:Hm; simpl.
    + rewrite IH. split; [by constructor|]. intros Hall. by inversion Hall.
    + split; [done|]. intros Hall. inversion Hall; congruence.
Qed.

End UrlFacts.

(** ** Teardown after a consumed mock *)

Section TeardownFacts.
Context `{!Lib}.



End TeardownFacts.

(** ** The further properties at concrete sessions *)

Section MoreWitnesses.
#[local] Existing Instance ascii_lib.

Ltac not_matching := intros Hmatching; vm_compute in Hmatching; discriminate.


Lemma raising_mock_is_counted_and_logged_witness :
  (_on_request (GET "http://x/") raising_session).1 = Raise (UserError "boom")
  /\ _calls (_on_request (GET "http://x/") raising_session).2
     = _calls raising_session
       ++ [{| request := with_params (GET "http://x/");
              response := ObjExc (UserError "boom") |}]
  /\ call_count (objects (_on_request (GET "http://x/") raising_session).2 0)
     = S (call_count (objects raising_session 0)).
Proof.
  apply (raising_mock_is_counted_and_logged raising_session (GET "http://x/")
           0 [] [] (UserError "boom")).
  - vm_compute; reflexivity.
  - apply Forall_nil_2.
  - vm_compute; reflexivity.
  - vm_compute; reflexivity.
Defined.

(** A callback that hands back a list with [content-type] replaces the
    declared content type; one that hands back a dict with the same key has
    its value filed after the declared content type, under the name
    [Content-Type]. *)
Lemma callback_content_type_witness :
  (exists raw,
      get_response
        (CallbackResponse__init__ "GET" (UStr "http://x/") json_callback false
           (Some "text/plain") UNSET [])
        (GET "http://x/") = Ok raw
      /\ raw_status raw = 201%Z
      /\ hd_items (raw_headers raw) = [("content-type", "application/json")]
      /\ hd_get "Content-Type" (raw_headers raw) = Some "application/json")
  /\ (exists raw,
        get_response
          (CallbackResponse__init__ "GET" (UStr "http://x/") dict_callback false
             (Some "text/plain") UNSET [])
          (GET "http://x/") = Ok raw
        /\ hd_items (raw_headers raw)
           = [("Content-Type", "text/plain"); ("Content-Type", "application/json")]
        /\ hd_get "Content-Type" (raw_headers raw)
           = Some "text/plain, application/json").
Proof.
  split.
  - destruct (callback_content_type "GET" (UStr "http://x/") json_callback false
                "text/plain" UNSET [] (GET "http://x/") 201
                (HList [("content-type", "application/json")]) (BodyText "{}"))
      as (raw & Hraw & Hstatus & Hhs & Hct & _).
    + vm_compute; reflexivity.
    + intros e; discriminate.
    + exists raw. split; [exact Hraw|]. split; [exact Hstatus|].
      split; [rewrite Hhs; vm_compute; reflexivity|].
      rewrite Hct; vm_compute; reflexivity.
  - destruct (callback_content_type "GET" (UStr "http://x/") dict_callback false
                "text/plain" UNSET [] (GET "http://x/") 201
                (HDict [("content-type", "application/json")]) (BodyText "{}"))
      as (raw & Hraw & _ & Hhs & Hct & _).
    + vm_compute; reflexivity.
    + intros e; discriminate.
    + exists raw. split; [exact Hraw|].
      split; [rewrite Hhs; vm_compute; reflexivity|].
      rewrite Hct; vm_compute; reflexivity.
Defined.

Lemma stop_raises_iff_witness :
  stop false teardown_session = (Ok tt, set_patcher (Some false) teardown_session).
Proof.
  refine (proj1 (stop_raises_iff teardown_session true _)).
  vm_compute; reflexivity.
Defined.

Lemma add_passthru_lets_through_witness :
  _on_request (GET "http://real/a")
    (after (add_passthru (UStr "http://real/")) twice_session)
  = (_real_send (with_params (GET "http://real/a")),
     after (add_passthru (UStr "http://real/")) twice_session).
Proof.
  apply (add_passthru_lets_through twice_session (UStr "http://real/")
           (GET "http://real/a")).
  - repeat apply Forall_cons_2; [not_matching..|apply Forall_nil_2].
  - split; [reflexivity|]. by exists "a".
Defined.


Lemma replace_after_remove_raises_witness :
  replace (IsMethod "GET") (UStr "http://x/") (BodyText "new") None no_kwargs
          (after (remove (IsMethod "GET") (UStr "http://x/")) twice_session)
  = (Raise (ValueError "Response is not registered for URL http://x/"),
     after (remove (IsMethod "GET") (UStr "http://x/")) twice_session).
Proof.
  apply (replace_after_remove_raises twice_session "GET" (UStr "http://x/")
           (BodyText "new") None no_kwargs
           (subclass (BaseResponse__init__ "GET" (UStr "http://x/") UNSET [])
              (Some "text/plain") None false (Static (BodyText "new") 200))).
  vm_compute; reflexivity.
Defined.

Lemma add_then_remove_round_trip_witness :
  registered (after (remove (IsMethod "GET") (UStr "http://x/"))
                (after (add (IsMethod "GET") (UStr "http://x/") (BodyText "x")
                            None no_kwargs) callback_session))
  = registered callback_session.
Proof.
  apply (add_then_remove_round_trip callback_session "GET" (UStr "http://x/")
           (BodyText "x") None no_kwargs).
  - vm_compute; reflexivity.
  - intros Hin. apply list_elem_of_singleton in Hin. discriminate.
  - apply Forall_cons_2; [vm_compute; reflexivity|apply Forall_nil_2].
Defined.

Lemma quote_is_ascii (x : ascii) : _has_unicode (quote x) = false.
Proof. destruct x as [[] [] [] [] [] [] [] []]; reflexivity. Qed.

Lemma _clean_unicode_cleans_witness :
  _has_unicode (_clean_unicode (String "233" "t" +:+ "://x/" +:+ String "233" ""))
  = false.
Proof.
  apply (proj1 (_clean_unicode_cleans _)). exact quote_is_ascii.
Defined.

Lemma lenient_matching_ignores_query_witness :
  _url_matches (UStr "http://x/") ("http://x/" +:+ "?" +:+ "a=1") false
  = _url_matches (UStr "http://x/") "http://x/" false.
Proof.
  refine (proj1 (lenient_matching_ignores_query "http://x/" "http://x/" "a=1" _)).
  vm_compute. intros Hin.
  repeat (apply elem_of_cons in Hin as [Hin|Hin]; [discriminate|]).
  by apply not_elem_of_nil in Hin.
Defined.


Lemma __exit___after_error_witness :
  __exit__ (Some (UserError "failed test")) teardown_session
  = (Ok false, torn_down teardown_session).
Proof.
  apply (__exit___after_error teardown_session (UserError "failed test") true).
  vm_compute; reflexivity.
Defined.

Lemma __exit___clean_witness :
  __exit__ None lenient_session = (Ok true, torn_down lenient_session).
Proof.
  refine (__exit___clean lenient_session true _ _).
  - vm_compute; reflexivity.
  - left. vm_compute; reflexivity.
Defined.

Lemma _parse_request_params_one_run_witness :
  _parse_request_params "/?a=1&a=3&b=2" !! "a" = Some (Multi ["1"; "3"]).
Proof.
  refine (eq_trans
            (_parse_request_params_one_run "/?a=1&a=3&b=2" "a"
               ("a", [("a", "1"); ("a", "3")]) _) _).
  - vm_compute; reflexivity.
  - vm_compute; reflexivity.
Defined.


End MoreWitnesses.
